(** * Ceros Ski: the skier state machine and the frame loop

    A shallow embedding of [src/Entities/Skier.ts] and [src/Core/Game.ts].

    Conventions of the embedding.
    - A JavaScript [number] that only ever holds integers in the program
      (the skier's [speed] and [direction], the game's [currentScore] and
      [gameTime]) is a [Z].  World coordinates, which receive
      [speed / DIAGONAL_SPEED_REDUCER], are exact rationals [Q]; rounding of
      IEEE doubles is not modelled.
    - A method [m(a, b)] of a class becomes a function [m this a b] that
      returns the updated object.
    - [Constants.ts], [Utils.ts], [Entity.ts], [Animation.ts], [ImageManager.ts],
      the obstacle manager and the rhino are outside the two files embedded here.
      The constants and helpers the code reads from them are [Variable]s of the
      sections below; what the collaborators do during a frame is an input of
      the frame. *)

From Stdlib Require Import ZArith QArith List String Bool Lia Lqa.
Import ListNotations.

Open Scope Z_scope.

(** ** Constants.ts (names only; the values are parameters) *)

Module Constants.

(** Modelled from the spec: [IMAGE_NAMES] is declared in [Constants.ts], which
    is missing.  The skier and obstacle images named in [Skier.ts] are listed,
    together with the two tree images standing for the spec's "non-jumpable
    types (e.g., trees)". *)
Inductive IMAGE_NAMES : Set :=
| SKIER_CRASH
| SKIER_LEFT
| SKIER_LEFTDOWN
| SKIER_DOWN
| SKIER_RIGHTDOWN
| SKIER_RIGHT
| SKIER_JUMP1
| SKIER_JUMP2
| SKIER_JUMP3
| SKIER_JUMP4
| SKIER_JUMP5
| TREE
| TREE_CLUSTER
| ROCK1
| ROCK2
| JUMP_RAMP.

Definition IMAGE_NAMES_eq_dec (a b : IMAGE_NAMES) : {a = b} + {a <> b}.
Proof. decide equality. Defined.

Definition IMAGE_NAMES_eqb (a b : IMAGE_NAMES) : bool :=
  if IMAGE_NAMES_eq_dec a b then true else false.

(** The [KEYS] table: one string per logical key. *)
Record KeyTable : Set := {
  SPACE : string;
  LEFT : string;
  RIGHT : string;
  UP : string;
  DOWN : string;
  PAUSE : string;
  RESET : string
}.

End Constants.

(** ** Utils.ts (the two data classes) *)

Module Utils.

Record Position : Set := { x : Q; y : Q }.

Record Rect : Set := { left : Q; top : Q; right : Q; bottom : Q }.

(** The size of a loaded image, as [getBounds] reads it. *)
Record Image : Set := { width : Q; height : Q }.

(** JavaScript's [a % b === 0] on integers: the remainder has the sign of the
    dividend ([Z.rem]); [a % 0] is [NaN], which is not [0]. *)
Definition remIsZero (a b : Z) : bool :=
  if b =? 0 then false else Z.rem a b =? 0.

End Utils.

(** ** Obstacles, as the skier reads them *)

Module Obstacle.

(** An obstacle exposes [imageName] and [getBounds()], which is [null] while
    its image is not loaded. *)
Record Obstacle : Set := {
  imageName : Constants.IMAGE_NAMES;
  getBounds : option Utils.Rect
}.

End Obstacle.

(** ** Skier.ts *)

Module Skier.

Import Constants Utils.

Definition STARTING_SPEED : Z := 5.

Inductive STATES : Set :=
| STATE_SKIING
| STATE_JUMPING
| STATE_CRASHED
| STATE_DEAD.

Definition STATES_eq_dec (a b : STATES) : {a = b} + {a <> b}.
Proof. decide equality. Defined.

Definition STATES_eqb (a b : STATES) : bool :=
  if STATES_eq_dec a b then true else false.

Definition DIRECTION_LEFT : Z := 0.
Definition DIRECTION_LEFT_DOWN : Z := 1.
Definition DIRECTION_DOWN : Z := 2.
Definition DIRECTION_RIGHT_DOWN : Z := 3.
Definition DIRECTION_RIGHT : Z := 4.

(** [DIRECTION_IMAGES[d]]; a key that is not in the object reads [undefined]. *)
Definition DIRECTION_IMAGES (d : Z) : option IMAGE_NAMES :=
  if d =? DIRECTION_LEFT then Some SKIER_LEFT
  else if d =? DIRECTION_LEFT_DOWN then Some SKIER_LEFTDOWN
  else if d =? DIRECTION_DOWN then Some SKIER_DOWN
  else if d =? DIRECTION_RIGHT_DOWN then Some SKIER_RIGHTDOWN
  else if d =? DIRECTION_RIGHT then Some SKIER_RIGHT
  else None.

Definition IMAGES_JUMPING : list IMAGE_NAMES :=
  [SKIER_JUMP1; SKIER_JUMP2; SKIER_JUMP3; SKIER_JUMP4; SKIER_JUMP5].

Definition JUMPABLE_OBSTACLES : list IMAGE_NAMES :=
  [ROCK1; ROCK2; JUMP_RAMP].

(** [Array.prototype.includes] on image names. *)
Definition includes (l : list IMAGE_NAMES) (a : IMAGE_NAMES) : bool :=
  existsb (IMAGE_NAMES_eqb a) l.

(** The fields of the skier: [position] is inherited from [Entity]; the image
    name is [None] when [DIRECTION_IMAGES] had no entry. *)
Record Skier : Set := {
  position : Position;
  imageName : option IMAGE_NAMES;
  state : STATES;
  direction : Z;
  speed : Z
}.

Definition set_position (p : Position) (this : Skier) : Skier :=
  {| position := p; imageName := imageName this; state := state this;
     direction := direction this; speed := speed this |}.

Definition set_imageName (i : option IMAGE_NAMES) (this : Skier) : Skier :=
  {| position := position this; imageName := i; state := state this;
     direction := direction this; speed := speed this |}.

Definition set_state (st : STATES) (this : Skier) : Skier :=
  {| position := position this; imageName := imageName this; state := st;
     direction := direction this; speed := speed this |}.

Definition set_direction (d : Z) (this : Skier) : Skier :=
  {| position := position this; imageName := imageName this;
     state := state this; direction := d; speed := speed this |}.

Definition set_speed (v : Z) (this : Skier) : Skier :=
  {| position := position this; imageName := imageName this;
     state := state this; direction := direction this; speed := v |}.

(** [new Skier(x, y, ...)] with the field initialisers of the class. *)
Definition new (x0 y0 : Q) : Skier :=
  {| position := {| x := x0; y := y0 |};
     imageName := Some SKIER_DOWN;
     state := STATE_SKIING;
     direction := DIRECTION_DOWN;
     speed := STARTING_SPEED |}.

Definition isCrashed (this : Skier) : bool := STATES_eqb (state this) STATE_CRASHED.
Definition isSkiing (this : Skier) : bool := STATES_eqb (state this) STATE_SKIING.
Definition isJumping (this : Skier) : bool := STATES_eqb (state this) STATE_JUMPING.
Definition isDead (this : Skier) : bool := STATES_eqb (state this) STATE_DEAD.

Definition isDownwardsFacing (this : Skier) : bool :=
  if direction this =? DIRECTION_DOWN then true
  else if direction this =? DIRECTION_LEFT_DOWN then true
  else if direction this =? DIRECTION_RIGHT_DOWN then true
  else false.

Definition isMovingDownwards (this : Skier) : bool :=
  isDownwardsFacing this && (0 <? speed this).

Definition setDirectionalImage (this : Skier) : Skier :=
  set_imageName (DIRECTION_IMAGES (direction this)) this.

Definition setDirection (this : Skier) (d : Z) : Skier :=
  setDirectionalImage (set_direction d this).

(** *** State changes *)

Definition crash (this : Skier) : Skier :=
  set_imageName (Some SKIER_CRASH) (set_speed 0 (set_state STATE_CRASHED this)).

Definition recoverFromCrash (this : Skier) (newDirection : Z) : Skier :=
  setDirection (set_speed STARTING_SPEED (set_state STATE_SKIING this)) newDirection.

Definition landFromJump (this : Skier) (currentSpeed : Z) : Skier :=
  set_speed currentSpeed (set_state STATE_SKIING this).

Definition die (this : Skier) : Skier :=
  set_speed 0 (set_state STATE_DEAD this).

(** Modelled from the spec: [Entity.setAnimation] is inherited from the missing
    [Entity.ts]; "start jump animation" shows the first image of the sequence
    registered for the state ([IMAGES_JUMPING] for the jumping state, nothing
    for the others). *)
Definition setAnimation (this : Skier) (st : STATES) : Skier :=
  match st with
  | STATE_JUMPING => set_imageName (hd_error IMAGES_JUMPING) this
  | _ => this
  end.

Definition jump (this : Skier) : Skier :=
  if isCrashed this then this
  else
    let this := set_state STATE_JUMPING this in
    setAnimation this (state this).

(** The callback registered by [setupAnimations] for the jump animation:
    [() => this.landFromJump(this.speed)].  The arrow function reads
    [this.speed] when it is called, that is when the animation finishes. *)
Definition jumpAnimationCallback (this : Skier) : Skier :=
  landFromJump this (speed this).

(** Modelled from the spec: what the animation helper of the missing
    [Entity.ts]/[Animation.ts] does in one call of [animate(gameTime)]: nothing
    (the frame timer has not elapsed), show the next image of the sequence, or
    finish, "signalling completion via the supplied callback". *)
Inductive AnimationTick : Set :=
| TICK_NONE
| TICK_IMAGE (i : IMAGE_NAMES)
| TICK_FINISHED.

Definition animate (this : Skier) (gameTime : Z) (tick : AnimationTick) : Skier :=
  match tick with
  | TICK_NONE => this
  | TICK_IMAGE i => set_imageName (Some i) this
  | TICK_FINISHED => jumpAnimationCallback this
  end.

(** *** Movement *)

Definition moveSkierLeft (this : Skier) : Skier :=
  set_position {| x := (x (position this) - inject_Z STARTING_SPEED)%Q;
                  y := y (position this) |} this.

Definition moveSkierRight (this : Skier) : Skier :=
  set_position {| x := (x (position this) + inject_Z STARTING_SPEED)%Q;
                  y := y (position this) |} this.

Definition moveSkierUp (this : Skier) : Skier :=
  set_position {| x := x (position this);
                  y := (y (position this) - inject_Z STARTING_SPEED)%Q |} this.

Definition moveSkierDown (this : Skier) : Skier :=
  set_position {| x := x (position this);
                  y := (y (position this) + inject_Z (speed this))%Q |} this.

Section Diagonal.

Variable DIAGONAL_SPEED_REDUCER : Q.

Definition moveSkierLeftDown (this : Skier) : Skier :=
  let this :=
    set_position {| x := (x (position this)
                          - inject_Z (speed this) / DIAGONAL_SPEED_REDUCER)%Q;
                    y := y (position this) |} this in
  set_position {| x := x (position this);
                  y := (y (position this)
                        + inject_Z (speed this) / DIAGONAL_SPEED_REDUCER)%Q |} this.

Definition moveSkierRightDown (this : Skier) : Skier :=
  let this :=
    set_position {| x := (x (position this)
                          + inject_Z (speed this) / DIAGONAL_SPEED_REDUCER)%Q;
                    y := y (position this) |} this in
  set_position {| x := x (position this);
                  y := (y (position this)
                        + inject_Z (speed this) / DIAGONAL_SPEED_REDUCER)%Q |} this.

(** The [switch] of [move]: the cases are tried in the order they are
    written; a direction with no case moves nothing. *)
Definition move (this : Skier) : Skier :=
  if direction this =? DIRECTION_LEFT_DOWN then moveSkierLeftDown this
  else if direction this =? DIRECTION_DOWN then moveSkierDown this
  else if direction this =? DIRECTION_RIGHT_DOWN then moveSkierRightDown this
  else if direction this =? DIRECTION_LEFT then this
  else if direction this =? DIRECTION_RIGHT then this
  else this.

End Diagonal.

(** *** Input *)

Definition turnLeft (this : Skier) : Skier :=
  let this :=
    if isCrashed this then recoverFromCrash this DIRECTION_LEFT else this in
  if negb (STATES_eqb (state this) STATE_JUMPING) then
    if direction this =? DIRECTION_LEFT then moveSkierLeft this
    else setDirection this (direction this - 1)
  else this.

Definition turnRight (this : Skier) : Skier :=
  let this :=
    if isCrashed this then recoverFromCrash this DIRECTION_RIGHT else this in
  if negb (STATES_eqb (state this) STATE_JUMPING) then
    if direction this =? DIRECTION_RIGHT then moveSkierRight this
    else setDirection this (direction this + 1)
  else this.

Definition turnUp (this : Skier) : Skier :=
  if isCrashed this then this
  else if (direction this =? DIRECTION_LEFT) || (direction this =? DIRECTION_RIGHT)
       then moveSkierUp this
       else this.

Definition turnDown (this : Skier) : Skier :=
  if isCrashed this then this
  else setDirection this DIRECTION_DOWN.

Section Input.

Variable KEYS : KeyTable.

(** [handleInput] returns the updated skier and the [handled] flag.  The
    [switch] compares the key with the cases in the order they are written. *)
Definition handleInput (this : Skier) (inputKey : string) : Skier * bool :=
  if isDead this then (this, false)
  else if String.eqb inputKey (SPACE KEYS) then (jump this, true)
  else if String.eqb inputKey (LEFT KEYS) then (turnLeft this, true)
  else if String.eqb inputKey (RIGHT KEYS) then (turnRight this, true)
  else if String.eqb inputKey (UP KEYS) then (turnUp this, true)
  else if String.eqb inputKey (DOWN KEYS) then (turnDown this, true)
  else (this, false).

End Input.

(** *** Obstacles *)

Definition interactWhileSkiing (this : Skier) (obstacle : IMAGE_NAMES) : Skier :=
  if IMAGE_NAMES_eqb obstacle JUMP_RAMP then jump this else crash this.

Definition interactWhileJumping (this : Skier) (imageName : IMAGE_NAMES) : Skier :=
  if negb (includes JUMPABLE_OBSTACLES imageName) then crash this else this.

(** Two [if]s in sequence: the second one reads the state the first one
    left. *)
Definition interactWithObstacle (this : Skier) (obstacle : IMAGE_NAMES) : Skier :=
  let this :=
    if STATES_eqb (state this) STATE_SKIING
    then interactWhileSkiing this obstacle else this in
  if STATES_eqb (state this) STATE_JUMPING
  then interactWhileJumping this obstacle else this.

Section Collision.

Variable getImage : IMAGE_NAMES -> option Image.
Variable intersectTwoRects : Rect -> Rect -> bool.

(** [getBounds]: the bottom edge is raised to a quarter of the image height
    above the position. *)
Definition getBounds (this : Skier) : option Rect :=
  match imageName this with
  | None => None
  | Some name =>
      match getImage name with
      | None => None
      | Some image =>
          Some {| left := (x (position this) - width image / 2)%Q;
                  top := (y (position this) - height image / 2)%Q;
                  right := (x (position this) + width image / 2)%Q;
                  bottom := (y (position this) - height image / 4)%Q |}
      end
  end.

(** The [find] of [checkIfHitObstacle], with the variable [obstacleName] its
    callback assigns: the result is the obstacle found, if any, and the last
    value of [obstacleName]. *)
Fixpoint findInteraction (skierBounds : Rect) (obstacles : list Obstacle.Obstacle)
    (obstacleName : option IMAGE_NAMES)
  : option Obstacle.Obstacle * option IMAGE_NAMES :=
  match obstacles with
  | [] => (None, obstacleName)
  | obstacle :: rest =>
      match Obstacle.getBounds obstacle with
      | None => findInteraction skierBounds rest obstacleName
      | Some obstacleBounds =>
          let obstacleName := Some (Obstacle.imageName obstacle) in
          if intersectTwoRects skierBounds obstacleBounds
          then (Some obstacle, obstacleName)
          else findInteraction skierBounds rest obstacleName
      end
  end.

Definition checkIfHitObstacle (this : Skier) (obstacles : list Obstacle.Obstacle)
  : Skier :=
  match getBounds this with
  | None => this
  | Some skierBounds =>
      match findInteraction skierBounds obstacles None with
      | (Some _, Some obstacleName) => interactWithObstacle this obstacleName
      | _ => this
      end
  end.

Variable DIAGONAL_SPEED_REDUCER : Q.
Variable SPEED_INCREASE_THRESHOLD : Z.

Definition increaseSpeedIfThresholdMet (this : Skier) (currentScore : Z) : Skier :=
  if remIsZero currentScore SPEED_INCREASE_THRESHOLD
  then set_speed (speed this + 1) this
  else this.

(** [update]: the obstacles are those [obstacleManager.getObstacles()] returns
    during the call, [tick] is what the animation helper does in it.  The
    jumping block tests the state the skiing block left. *)
Definition update (this : Skier) (gameTime currentScore : Z)
    (obstacles : list Obstacle.Obstacle) (tick : AnimationTick) : Skier :=
  let this :=
    if isSkiing this
    then checkIfHitObstacle (move DIAGONAL_SPEED_REDUCER this) obstacles
    else this in
  let this :=
    if isJumping this
    then checkIfHitObstacle
           (animate (move DIAGONAL_SPEED_REDUCER this) gameTime tick) obstacles
    else this in
  increaseSpeedIfThresholdMet this currentScore.

End Collision.

End Skier.

(** ** Game.ts *)

Module Game.

Import Constants Utils.

Inductive STATES : Set :=
| STATE_PLAYING
| STATE_PAUSED.

Definition STATES_eqb (a b : STATES) : bool :=
  match a, b with
  | STATE_PLAYING, STATE_PLAYING => true
  | STATE_PAUSED, STATE_PAUSED => true
  | _, _ => false
  end.

(** The fields of the game the frame loop reads and writes.  The canvas, the
    image manager, the obstacle manager and the rhino are collaborators: the
    calls the loop makes to them are recorded in a log. *)
Record Game : Set := {
  state : STATES;
  currentScore : Z;
  gameWindow : Rect;
  gameTime : Z;
  skier : Skier.Skier
}.

(** A call made by the frame loop to a collaborator or to an entity. *)
Inductive Call : Set :=
| ClearCanvas
| IncreaseObstaclePlacementChance
| PlaceNewObstacle (gameWindow previousGameWindow : Rect)
| SkierUpdate (gameTime currentScore : Z)
| RhinoUpdate (gameTime currentScore : Z)
| SetDrawOffset (l t : Q)
| DrawGameMetadata (currentScore : Z)
| EntityDraw (enlargeImage : bool)
| RhinoDraw
| DrawObstacles
| RequestAnimationFrame
| DrawPauseIcon.

Definition isSkierUpdate (c : Call) : bool :=
  match c with SkierUpdate _ _ => true | _ => false end.

Definition isRhinoUpdate (c : Call) : bool :=
  match c with RhinoUpdate _ _ => true | _ => false end.

Definition isEntityDraw (c : Call) : bool :=
  match c with EntityDraw _ => true | _ => false end.

(** What the outside world contributes to one frame: the value of
    [Date.now()], the obstacles the obstacle manager holds once it has placed
    the new ones, what the animation helper does, and whether the rhino
    catches the skier in its update. *)
Record Frame : Set := {
  now : Z;
  obstacles : list Obstacle.Obstacle;
  tick : Skier.AnimationTick;
  rhinoCatchesSkier : bool
}.

Definition set_skier (s : Skier.Skier) (this : Game) : Game :=
  {| state := state this; currentScore := currentScore this;
     gameWindow := gameWindow this; gameTime := gameTime this; skier := s |}.

Definition set_currentScore (n : Z) (this : Game) : Game :=
  {| state := state this; currentScore := n;
     gameWindow := gameWindow this; gameTime := gameTime this;
     skier := skier this |}.

Definition set_gameWindow (r : Rect) (this : Game) : Game :=
  {| state := state this; currentScore := currentScore this;
     gameWindow := r; gameTime := gameTime this; skier := skier this |}.

Definition set_gameTime (t : Z) (this : Game) : Game :=
  {| state := state this; currentScore := currentScore this;
     gameWindow := gameWindow this; gameTime := t; skier := skier this |}.

Definition set_state (st : STATES) (this : Game) : Game :=
  {| state := st; currentScore := currentScore this;
     gameWindow := gameWindow this; gameTime := gameTime this;
     skier := skier this |}.

Definition isPlaying (this : Game) : bool := STATES_eqb (state this) STATE_PLAYING.
Definition isPaused (this : Game) : bool := STATES_eqb (state this) STATE_PAUSED.

Definition updateCurrentScore (this : Game) : Game :=
  if Skier.isMovingDownwards (skier this)
  then set_currentScore (currentScore this + 1) this
  else this.

(** [Skier.draw]: nothing for a dead skier, else [super.draw(enlargeImage)]. *)
Definition skierDraw (s : Skier.Skier) : list Call :=
  if Skier.isDead s then [] else [EntityDraw (Skier.isJumping s)].

(** Modelled from the spec: [Rhino.ts] is missing; the pursuing enemy's update
    "may trigger the player's death transition", which is the only way it
    touches the skier. *)
Definition rhinoUpdate (caught : bool) (s : Skier.Skier) : Skier.Skier :=
  if caught then Skier.die s else s.

Section Loop.

Variable GAME_WIDTH GAME_HEIGHT : Q.
Variable OBSTACLE_FREQUENCY_INCREASE_THRESHOLD : Z.
Variable getImage : IMAGE_NAMES -> option Image.
Variable intersectTwoRects : Rect -> Rect -> bool.
Variable DIAGONAL_SPEED_REDUCER : Q.
Variable SPEED_INCREASE_THRESHOLD : Z.

Definition calculateGameWindow (this : Game) : Game :=
  let skierPosition := Skier.position (skier this) in
  let l := (x skierPosition - GAME_WIDTH / 2)%Q in
  let t := (y skierPosition - GAME_HEIGHT / 2)%Q in
  set_gameWindow {| left := l; top := t;
                    right := (l + GAME_WIDTH)%Q; bottom := (t + GAME_HEIGHT)%Q |}
                 this.

(** [init] and the field initialisers: the skier at the origin, score 0,
    playing; [t0] is the value [Date.now()] had. *)
Definition init (t0 : Z) : Game :=
  calculateGameWindow
    {| state := STATE_PLAYING; currentScore := 0;
       gameWindow := {| left := 0; top := 0; right := 0; bottom := 0 |};
       gameTime := t0; skier := Skier.new 0 0 |}.

Definition updateGameWindow (this : Game) (f : Frame) : Game * list Call :=
  let this := set_gameTime (now f) this in
  let previousGameWindow := gameWindow this in
  let this := calculateGameWindow this in
  let log1 :=
    if remIsZero (currentScore this) OBSTACLE_FREQUENCY_INCREASE_THRESHOLD
    then [IncreaseObstaclePlacementChance] else [] in
  let log2 := [PlaceNewObstacle (gameWindow this) previousGameWindow] in
  let this :=
    set_skier
      (Skier.update getImage intersectTwoRects DIAGONAL_SPEED_REDUCER
         SPEED_INCREASE_THRESHOLD (skier this) (gameTime this)
         (currentScore this) (obstacles f) (tick f))
      this in
  let log3 := [SkierUpdate (gameTime this) (currentScore this)] in
  let this := set_skier (rhinoUpdate (rhinoCatchesSkier f) (skier this)) this in
  let log4 := [RhinoUpdate (gameTime this) (currentScore this)] in
  (this, log1 ++ log2 ++ log3 ++ log4).

Definition drawGameWindow (this : Game) : list Call :=
  [SetDrawOffset (left (gameWindow this)) (top (gameWindow this));
   DrawGameMetadata (currentScore this)]
  ++ skierDraw (skier this) ++ [RhinoDraw; DrawObstacles].

(** One call of [run]: a frame when playing, the pause icon when paused. *)
Definition run (this : Game) (f : Frame) : Game * list Call :=
  let '(this, log1) :=
    if isPlaying this then
      let '(this, updates) := updateGameWindow this f in
      let this := updateCurrentScore this in
      (this, [ClearCanvas] ++ updates ++ drawGameWindow this
             ++ [RequestAnimationFrame])
    else (this, []) in
  let log2 := if isPaused this then [DrawPauseIcon] else [] in
  (this, log1 ++ log2).

(** [run] called once per frame of the list, the logs one after the other. *)
Fixpoint runFrames (this : Game) (fs : list Frame) : Game * list Call :=
  match fs with
  | [] => (this, [])
  | f :: rest =>
      let '(this, log1) := run this f in
      let '(this, log2) := runFrames this rest in
      (this, log1 ++ log2)
  end.

End Loop.

(** *** Keyboard *)

(** What a key press does besides changing the game: the calls of a frame run
    from inside the handler, [location.reload()], [event.preventDefault()]. *)
Inductive KeyCall : Set :=
| FrameCall (c : Call)
| LocationReload
| PreventDefault.

Definition isPreventDefault (c : KeyCall) : bool :=
  match c with PreventDefault => true | _ => false end.

Definition isRequestAnimationFrame (c : Call) : bool :=
  match c with RequestAnimationFrame => true | _ => false end.

Section Keyboard.

Variable KEYS : KeyTable.
Variable GAME_WIDTH GAME_HEIGHT : Q.
Variable OBSTACLE_FREQUENCY_INCREASE_THRESHOLD : Z.
Variable getImage : IMAGE_NAMES -> option Image.
Variable intersectTwoRects : Rect -> Rect -> bool.
Variable DIAGONAL_SPEED_REDUCER : Q.
Variable SPEED_INCREASE_THRESHOLD : Z.

(** [pauseOrResume]: resuming calls [run] at once; [f] is what the outside
    world contributes to that call. *)
Definition pauseOrResume (this : Game) (f : Frame) : Game * list KeyCall :=
  if isPlaying this then (set_state STATE_PAUSED this, [])
  else if isPaused this then
    let '(this, log) :=
      run GAME_WIDTH GAME_HEIGHT OBSTACLE_FREQUENCY_INCREASE_THRESHOLD getImage
        intersectTwoRects DIAGONAL_SPEED_REDUCER SPEED_INCREASE_THRESHOLD
        (set_state STATE_PLAYING this) f in
    (this, map FrameCall log)
  else (this, []).

Definition reset (this : Game) : Game * list KeyCall :=
  (this, [LocationReload]).

(** [Game.handleInput]: the updated game, the calls made and the [handled]
    flag. *)
Definition handleInput (this : Game) (inputKey : string) (f : Frame)
  : Game * list KeyCall * bool :=
  if String.eqb inputKey (PAUSE KEYS) then (pauseOrResume this f, true)
  else if String.eqb inputKey (RESET KEYS) then (reset this, true)
  else (this, [], false).

(** [handleKeyDown(event)] with [event.key = key]: the game first, then the
    skier if the game is playing at that moment. *)
Definition handleKeyDown (this : Game) (key : string) (f : Frame)
  : Game * list KeyCall :=
  let '(this, log, handledByGame) := handleInput this key f in
  let '(this, handledBySkier) :=
    if isPlaying this then
      let '(s, handled) := Skier.handleInput KEYS (skier this) key in
      (set_skier s this, handled)
    else (this, false) in
  (this, log ++ (if handledByGame || handledBySkier then [PreventDefault] else [])).

(** What the browser does to a game: it calls [run] for an animation frame and
    [handleKeyDown] for a key press. *)
Inductive Event : Set :=
| AnimationFrame (f : Frame)
| KeyDown (key : string) (f : Frame).

Definition step (this : Game) (e : Event) : Game :=
  match e with
  | AnimationFrame f =>
      fst (run GAME_WIDTH GAME_HEIGHT OBSTACLE_FREQUENCY_INCREASE_THRESHOLD
             getImage intersectTwoRects DIAGONAL_SPEED_REDUCER
             SPEED_INCREASE_THRESHOLD this f)
  | KeyDown key f => fst (handleKeyDown this key f)
  end.

Definition play (this : Game) (events : list Event) : Game :=
  fold_left step events this.

End Keyboard.

End Game.

(** ** Concrete values for the parameters, used in the worked scenarios *)

Module Scenario.

Import Constants Utils.

Open Scope string_scope.

(** A key table with the browser's [KeyboardEvent.key] names of the arrow keys
    and the space bar, and the pause and reset keys of the README. *)
Definition KEYS : KeyTable :=
  {| SPACE := " "; LEFT := "ArrowLeft"; RIGHT := "ArrowRight";
     UP := "ArrowUp"; DOWN := "ArrowDown"; PAUSE := "f"; RESET := "r" |}.

Close Scope string_scope.

Definition SPEED_INCREASE_THRESHOLD : Z := 10.
Definition OBSTACLE_FREQUENCY_INCREASE_THRESHOLD : Z := 100.
Definition DIAGONAL_SPEED_REDUCER : Q := 14142 # 10000.
Definition GAME_WIDTH : Q := 800.
Definition GAME_HEIGHT : Q := 600.

(** Every image is loaded and is 40 by 40. *)
Definition getImage (_ : IMAGE_NAMES) : option Image :=
  Some {| width := 40; height := 40 |}.

(** Two rectangles with closed edges intersect unless one lies entirely to
    one side of the other. *)
Definition intersectTwoRects (rect1 rect2 : Rect) : bool :=
  negb (Qle_bool (right rect1) (left rect2) && negb (Qeq_bool (right rect1) (left rect2))
        || Qle_bool (right rect2) (left rect1) && negb (Qeq_bool (right rect2) (left rect1))
        || Qle_bool (bottom rect1) (top rect2) && negb (Qeq_bool (bottom rect1) (top rect2))
        || Qle_bool (bottom rect2) (top rect1) && negb (Qeq_bool (bottom rect2) (top rect1))).

(** A tree and a ramp straight below the origin, where the skier is after
    eleven frames of skiing down. *)
Definition boundsOnTheWay : Rect :=
  {| left := -10 # 1; top := 50; right := 10; bottom := 90 |}.

Definition treeOnTheWay : Obstacle.Obstacle :=
  {| Obstacle.imageName := TREE; Obstacle.getBounds := Some boundsOnTheWay |}.

Definition rampOnTheWay : Obstacle.Obstacle :=
  {| Obstacle.imageName := JUMP_RAMP; Obstacle.getBounds := Some boundsOnTheWay |}.

(** A frame of the game in which nothing happens around the skier. *)
Definition quietFrame (t : Z) : Game.Frame :=
  {| Game.now := t; Game.obstacles := []; Game.tick := Skier.TICK_NONE;
     Game.rhinoCatchesSkier := false |}.

(** A frame in which the tree is among the obstacles. *)
Definition treeFrame (t : Z) : Game.Frame :=
  {| Game.now := t; Game.obstacles := [treeOnTheWay];
     Game.tick := Skier.TICK_NONE; Game.rhinoCatchesSkier := false |}.

(** A frame in which the rhino catches the skier. *)
Definition caughtFrame (t : Z) : Game.Frame :=
  {| Game.now := t; Game.obstacles := []; Game.tick := Skier.TICK_NONE;
     Game.rhinoCatchesSkier := true |}.

Definition skierUpdate :=
  Skier.update getImage intersectTwoRects DIAGONAL_SPEED_REDUCER
    SPEED_INCREASE_THRESHOLD.

Definition gameInit := Game.init GAME_WIDTH GAME_HEIGHT.

Definition gameRun :=
  Game.run GAME_WIDTH GAME_HEIGHT OBSTACLE_FREQUENCY_INCREASE_THRESHOLD
    getImage intersectTwoRects DIAGONAL_SPEED_REDUCER SPEED_INCREASE_THRESHOLD.

Definition gameRunFrames :=
  Game.runFrames GAME_WIDTH GAME_HEIGHT OBSTACLE_FREQUENCY_INCREASE_THRESHOLD
    getImage intersectTwoRects DIAGONAL_SPEED_REDUCER SPEED_INCREASE_THRESHOLD.

Definition gameHandleKeyDown :=
  Game.handleKeyDown KEYS GAME_WIDTH GAME_HEIGHT
    OBSTACLE_FREQUENCY_INCREASE_THRESHOLD getImage intersectTwoRects
    DIAGONAL_SPEED_REDUCER SPEED_INCREASE_THRESHOLD.

Definition gamePauseOrResume :=
  Game.pauseOrResume GAME_WIDTH GAME_HEIGHT
    OBSTACLE_FREQUENCY_INCREASE_THRESHOLD getImage intersectTwoRects
    DIAGONAL_SPEED_REDUCER SPEED_INCREASE_THRESHOLD.

(** A rock at the same place as the tree and the ramp. *)
Definition rockOnTheWay : Obstacle.Obstacle :=
  {| Obstacle.imageName := ROCK1; Obstacle.getBounds := Some boundsOnTheWay |}.

(** An obstacle whose image is not loaded, and one far from the skier's way. *)
Definition unloadedTree : Obstacle.Obstacle :=
  {| Obstacle.imageName := TREE; Obstacle.getBounds := None |}.

Definition treeFarAway : Obstacle.Obstacle :=
  {| Obstacle.imageName := TREE_CLUSTER;
     Obstacle.getBounds :=
       Some {| left := 300; top := 50; right := 340; bottom := 90 |} |}.

(** A playing game with score 10 whose skier skis at speed 6 and faces fully
    left. *)
Definition stoppedGame : Game.Game :=
  {| Game.state := Game.STATE_PLAYING;
     Game.currentScore := 10;
     Game.gameWindow :=
       {| left := -400 # 1; top := -241 # 1; right := 400; bottom := 359 |};
     Game.gameTime := 162;
     Game.skier :=
       {| Skier.position := {| x := -5 # 1; y := 59 |};
          Skier.imageName := Some SKIER_LEFT;
          Skier.state := Skier.STATE_SKIING;
          Skier.direction := Skier.DIRECTION_LEFT;
          Skier.speed := 6 |} |}.

(** The game after [n] quiet frames from the start, one frame every 16 ms. *)
Definition quietRun (n : nat) : Game.Game :=
  fst (gameRunFrames (gameInit 0)
         (map (fun i => quietFrame (16 * Z.of_nat i)) (seq 1 n))).

End Scenario.

(** ** Invariants *)

Module Invariants.

(** A skier whose direction is one of the five constants, whose speed is not
    negative and whose image name is defined. *)
Definition skierOk (this : Skier.Skier) : Prop :=
  (Skier.DIRECTION_LEFT <= Skier.direction this <= Skier.DIRECTION_RIGHT)
  /\ 0 <= Skier.speed this
  /\ Skier.imageName this <> None.

Definition gameOk (this : Game.Game) : Prop :=
  skierOk (Game.skier this) /\ 0 <= Game.currentScore this.

(** An obstacle the collision search passes over: its bounds are missing or
    do not intersect the skier's. *)
Definition misses (intersectTwoRects : Utils.Rect -> Utils.Rect -> bool)
    (skierBounds : Utils.Rect) (obstacle : Obstacle.Obstacle) : Prop :=
  match Obstacle.getBounds obstacle with
  | None => True
  | Some obstacleBounds => intersectTwoRects skierBounds obstacleBounds = false
  end.

End Invariants.

(** * Properties of the skier *)

Module SkierSpec.

Import Constants Utils Skier.

Lemma STATES_eqb_eq (a b : STATES) : STATES_eqb a b = true <-> a = b.
Proof.
  unfold STATES_eqb. destruct (STATES_eq_dec a b); split; congruence.
Qed.

Lemma STATES_eqb_neq (a b : STATES) : STATES_eqb a b = false <-> a <> b.
Proof.
  unfold STATES_eqb. destruct (STATES_eq_dec a b); split; congruence.
Qed.

Lemma IMAGE_NAMES_eqb_eq (a b : IMAGE_NAMES) : IMAGE_NAMES_eqb a b = true <-> a = b.
Proof.
  unfold IMAGE_NAMES_eqb. destruct (IMAGE_NAMES_eq_dec a b); split; congruence.
Qed.

Lemma includes_In (l : list IMAGE_NAMES) (a : IMAGE_NAMES) :
  includes l a = true <-> In a l.
Proof.
  unfold includes. rewrite existsb_exists. split.
  - intros [b [Hin Heq]]. apply IMAGE_NAMES_eqb_eq in Heq. now subst.
  - intros Hin. exists a. split; [assumption | now apply IMAGE_NAMES_eqb_eq].
Qed.

Lemma includes_not_In (l : list IMAGE_NAMES) (a : IMAGE_NAMES) :
  includes l a = false <-> ~ In a l.
Proof.
  rewrite <- includes_In. destruct (includes l a); split; congruence.
Qed.

(** Rewrites the state tests of a skier whose state is known. *)
Ltac know_state H :=
  unfold isCrashed, isSkiing, isJumping, isDead; rewrite ?H; cbn.

(** ** The state changes, field by field *)

Lemma crash_fields (this : Skier) :
  state (crash this) = STATE_CRASHED /\ speed (crash this) = 0
  /\ direction (crash this) = direction this
  /\ position (crash this) = position this.
Proof. now cbn. Qed.

Lemma die_fields (this : Skier) :
  state (die this) = STATE_DEAD /\ speed (die this) = 0
  /\ direction (die this) = direction this
  /\ position (die this) = position this.
Proof. now cbn. Qed.

Lemma jump_fields (this : Skier) :
  state this <> STATE_CRASHED ->
  state (jump this) = STATE_JUMPING /\ speed (jump this) = speed this
  /\ direction (jump this) = direction this
  /\ position (jump this) = position this.
Proof.
  intros H. unfold jump, isCrashed.
  apply STATES_eqb_neq in H. rewrite H. now cbn.
Qed.

(** Landing through the registered callback keeps whatever speed the skier
    has when the animation finishes. *)
Lemma jumpAnimationCallback_fields (this : Skier) :
  state (jumpAnimationCallback this) = STATE_SKIING
  /\ speed (jumpAnimationCallback this) = speed this.
Proof. now cbn. Qed.

(** ** Turning while in the air *)

Lemma turnLeft_jumping (this : Skier) :
  state this = STATE_JUMPING -> turnLeft this = this.
Proof. intros H. unfold turnLeft. know_state H. now rewrite H. Qed.

Lemma turnRight_jumping (this : Skier) :
  state this = STATE_JUMPING -> turnRight this = this.
Proof. intros H. unfold turnRight. know_state H. now rewrite H. Qed.

Lemma turnUp_direction (this : Skier) :
  direction (turnUp this) = direction this.
Proof.
  unfold turnUp. destruct (isCrashed this); [reflexivity |].
  now destruct ((direction this =? DIRECTION_LEFT) || (direction this =? DIRECTION_RIGHT)).
Qed.

Lemma turnDown_jumping (this : Skier) :
  state this = STATE_JUMPING ->
  state (turnDown this) = STATE_JUMPING /\ direction (turnDown this) = DIRECTION_DOWN.
Proof. intros H. unfold turnDown. know_state H. now split. Qed.

(** C4, at a skier that jumped while facing left-down: the turn-down key
    changes the direction of a jumping skier from [DIRECTION_LEFT_DOWN] to
    [DIRECTION_DOWN], although turn-left and turn-right leave it alone. *)
Theorem turnDown_turns_a_jumping_skier :
  let before := jump (turnLeft (new 0 0)) in
  let after := fst (handleInput Scenario.KEYS before (DOWN Scenario.KEYS)) in
  state before = STATE_JUMPING /\ direction before = DIRECTION_LEFT_DOWN
  /\ snd (handleInput Scenario.KEYS before (DOWN Scenario.KEYS)) = true
  /\ state after = STATE_JUMPING /\ direction after = DIRECTION_DOWN
  /\ fst (handleInput Scenario.KEYS before (LEFT Scenario.KEYS)) = before
  /\ fst (handleInput Scenario.KEYS before (RIGHT Scenario.KEYS)) = before.
Proof. cbv zeta. repeat split; vm_compute; reflexivity. Qed.

(** ** Obstacles *)

(** C6: the dispatch of [interactWithObstacle] on the state and the obstacle.
    While skiing, an obstacle other than the ramp crashes the skier (state
    crashed, speed 0) whatever the speed and direction were, and the ramp makes
    the skier jump; while jumping, an obstacle of [JUMPABLE_OBSTACLES] (the two
    rocks and the ramp) changes nothing, and any other obstacle crashes the
    skier with speed 0. *)
Theorem interactWithObstacle_dispatch (this : Skier) (obstacle : IMAGE_NAMES) :
  (state this = STATE_SKIING -> obstacle <> JUMP_RAMP ->
     state (interactWithObstacle this obstacle) = STATE_CRASHED
     /\ speed (interactWithObstacle this obstacle) = 0)
  /\ (state this = STATE_SKIING -> obstacle = JUMP_RAMP ->
     state (interactWithObstacle this obstacle) = STATE_JUMPING)
  /\ (state this = STATE_JUMPING ->
      obstacle = ROCK1 \/ obstacle = ROCK2 \/ obstacle = JUMP_RAMP ->
     interactWithObstacle this obstacle = this)
  /\ (state this = STATE_JUMPING -> ~ In obstacle JUMPABLE_OBSTACLES ->
     state (interactWithObstacle this obstacle) = STATE_CRASHED
     /\ speed (interactWithObstacle this obstacle) = 0).
Proof.
  unfold interactWithObstacle, interactWhileSkiing, interactWhileJumping.
  repeat apply conj.
  - intros Hs Ho. rewrite Hs. cbn.
    destruct (IMAGE_NAMES_eqb obstacle JUMP_RAMP) eqn:E.
    + apply IMAGE_NAMES_eqb_eq in E. contradiction.
    + now cbn.
  - intros Hs Ho. subst obstacle. rewrite Hs. cbn.
    unfold jump. know_state Hs. reflexivity.
  - intros Hs Ho.
    assert (Hin : includes JUMPABLE_OBSTACLES obstacle = true).
    { apply includes_In. cbn. intuition auto. }
    rewrite Hs, Hin. cbn. now rewrite Hs.
  - intros Hs Ho. apply includes_not_In in Ho.
    rewrite Hs, Ho. cbn. now rewrite Hs.
Qed.

Lemma interactWithObstacle_dispatch_witness :
  (state (interactWithObstacle (new 0 0) TREE) = STATE_CRASHED
   /\ speed (interactWithObstacle (new 0 0) TREE) = 0)
  /\ state (interactWithObstacle (new 0 0) JUMP_RAMP) = STATE_JUMPING
  /\ interactWithObstacle (jump (new 0 0)) ROCK1 = jump (new 0 0)
  /\ (state (interactWithObstacle (jump (new 0 0)) TREE) = STATE_CRASHED
      /\ speed (interactWithObstacle (jump (new 0 0)) TREE) = 0).
Proof.
  repeat apply conj.
  - apply (proj1 (interactWithObstacle_dispatch (new 0 0) TREE));
      [reflexivity | discriminate].
  - apply (proj1 (interactWithObstacle_dispatch (new 0 0) TREE));
      [reflexivity | discriminate].
  - apply (proj1 (proj2 (interactWithObstacle_dispatch (new 0 0) JUMP_RAMP)));
      reflexivity.
  - apply (proj1 (proj2 (proj2
             (interactWithObstacle_dispatch (jump (new 0 0)) ROCK1))));
      [reflexivity | left; reflexivity].
  - apply (proj2 (proj2 (proj2
             (interactWithObstacle_dispatch (jump (new 0 0)) TREE))));
      [reflexivity | cbn; intuition discriminate].
  - apply (proj2 (proj2 (proj2
             (interactWithObstacle_dispatch (jump (new 0 0)) TREE))));
      [reflexivity | cbn; intuition discriminate].
Defined.

(** ** Movement *)

Lemma move_keeps (k : Q) (this : Skier) :
  state (move k this) = state this /\ speed (move k this) = speed this
  /\ direction (move k this) = direction this
  /\ imageName (move k this) = imageName this.
Proof.
  unfold move.
  repeat match goal with |- context [if ?b then _ else _] => destruct b end;
    now cbn.
Qed.

Lemma diagonal_step_positive (k : Q) (v : Z) :
  0 < v -> (0 < k)%Q -> (0 < inject_Z v / k)%Q.
Proof.
  intros Hv Hk. apply Qlt_shift_div_l; [assumption |].
  rewrite Qmult_0_l. change 0%Q with (inject_Z 0). now rewrite <- Zlt_Qlt.
Qed.

(** One call of [move], by direction, with [k] the diagonal constant and
    world coordinates taken as exact rationals.  Facing down, [y] grows by
    exactly the speed and [x] is unchanged.  Facing left-down or right-down,
    [x] and [y] both change by [speed / k] in size, [y] growing and [x] going
    to the side of the direction (strictly so when the speed and [k] are
    positive).  Facing fully left or fully right, nothing moves. *)
Theorem move_by_direction (k : Q) (this : Skier) :
  let p := position this in
  let p' := position (move k this) in
  let step := (inject_Z (speed this) / k)%Q in
  (direction this = DIRECTION_DOWN ->
     x p' = x p /\ y p' = (y p + inject_Z (speed this))%Q)
  /\ (direction this = DIRECTION_LEFT_DOWN ->
      (x p' = (x p - step)%Q /\ y p' = (y p + step)%Q)
      /\ ((x p' - x p == - step)%Q /\ (y p' - y p == step)%Q)
      /\ (0 < speed this -> (0 < k)%Q -> (x p' < x p)%Q /\ (y p < y p')%Q))
  /\ (direction this = DIRECTION_RIGHT_DOWN ->
      (x p' = (x p + step)%Q /\ y p' = (y p + step)%Q)
      /\ ((x p' - x p == step)%Q /\ (y p' - y p == step)%Q)
      /\ (0 < speed this -> (0 < k)%Q -> (x p < x p')%Q /\ (y p < y p')%Q))
  /\ (direction this = DIRECTION_LEFT \/ direction this = DIRECTION_RIGHT ->
      move k this = this).
Proof.
  cbv zeta. unfold move. repeat apply conj.
  - intros H. rewrite H. now cbn.
  - intros H. rewrite H. cbn. repeat apply conj; try reflexivity.
    + lra.
    + lra.
    + intros Hv Hk. pose proof (diagonal_step_positive k _ Hv Hk). split; lra.
  - intros H. rewrite H. cbn. repeat apply conj; try reflexivity.
    + lra.
    + lra.
    + intros Hv Hk. pose proof (diagonal_step_positive k _ Hv Hk). split; lra.
  - intros [H | H]; rewrite H; reflexivity.
Qed.

Lemma move_by_direction_witness :
  let k := Scenario.DIAGONAL_SPEED_REDUCER in
  let down := new 0 0 in
  let leftDown := turnLeft (new 0 0) in
  let rightDown := turnRight (new 0 0) in
  let left := turnLeft (turnLeft (new 0 0)) in
  (x (position (move k down)) = 0%Q
   /\ y (position (move k down)) = (0 + inject_Z 5)%Q)
  /\ ((x (position (move k leftDown)) < 0)%Q
      /\ (0 < y (position (move k leftDown)))%Q)
  /\ ((0 < x (position (move k rightDown)))%Q
      /\ (0 < y (position (move k rightDown)))%Q)
  /\ move k left = left.
Proof.
  cbv zeta. repeat apply conj.
  - apply (proj1 (move_by_direction Scenario.DIAGONAL_SPEED_REDUCER (new 0 0))).
    reflexivity.
  - apply (proj1 (move_by_direction Scenario.DIAGONAL_SPEED_REDUCER (new 0 0))).
    reflexivity.
  - apply (proj1 (proj2 (move_by_direction Scenario.DIAGONAL_SPEED_REDUCER
                           (turnLeft (new 0 0)))));
      [reflexivity | reflexivity | reflexivity].
  - apply (proj1 (proj2 (move_by_direction Scenario.DIAGONAL_SPEED_REDUCER
                           (turnLeft (new 0 0)))));
      [reflexivity | reflexivity | reflexivity].
  - apply (proj1 (proj2 (proj2
             (move_by_direction Scenario.DIAGONAL_SPEED_REDUCER
                (turnRight (new 0 0))))));
      [reflexivity | reflexivity | reflexivity].
  - apply (proj1 (proj2 (proj2
             (move_by_direction Scenario.DIAGONAL_SPEED_REDUCER
                (turnRight (new 0 0))))));
      [reflexivity | reflexivity | reflexivity].
  - apply (proj2 (proj2 (proj2
             (move_by_direction Scenario.DIAGONAL_SPEED_REDUCER
                (turnLeft (turnLeft (new 0 0))))))).
    left. reflexivity.
Defined.

Lemma increaseSpeedIfThresholdMet_fields (threshold : Z) (this : Skier) (score : Z) :
  let this' := increaseSpeedIfThresholdMet threshold this score in
  state this' = state this /\ direction this' = direction this
  /\ position this' = position this
  /\ speed this' = (if remIsZero score threshold then speed this + 1 else speed this).
Proof.
  cbv zeta. unfold increaseSpeedIfThresholdMet.
  destruct (remIsZero score threshold); now cbn.
Qed.

(** A frame of a skiing skier with no obstacle around moves it by one call of
    [move]. *)
Lemma update_skiing_without_obstacle
    (getImage : IMAGE_NAMES -> option Image)
    (intersectTwoRects : Rect -> Rect -> bool) (k : Q) (threshold : Z)
    (this : Skier) (gameTime score : Z) (tick : AnimationTick) :
  state this = STATE_SKIING ->
  position (update getImage intersectTwoRects k threshold this gameTime score [] tick)
  = position (move k this).
Proof.
  intros H. unfold update. know_state H.
  assert (Hc : checkIfHitObstacle getImage intersectTwoRects (move k this) []
               = move k this).
  { unfold checkIfHitObstacle. now destruct (getBounds getImage (move k this)). }
  rewrite Hc. destruct (move_keeps k this) as [Hs _].
  know_state Hs. know_state H.
  apply increaseSpeedIfThresholdMet_fields.
Qed.

(** C7, on the skier of a game that ran ten quiet frames (skiing, facing down,
    speed 6, at [y = 59]): in the frame in which it reaches a ramp, [update]
    runs its skiing block, which moves the skier and makes it jump, and then
    its jumping block, which moves it again, so that [y] advances by 12, twice
    the speed, to 71, with [x] unchanged.  The same frame without the ramp
    advances [y] by the speed, to 65. *)
Theorem update_on_a_ramp_moves_twice :
  let skiing := Game.skier (Scenario.quietRun 10) in
  let onRamp :=
    Scenario.skierUpdate skiing 176 10 [Scenario.rampOnTheWay] TICK_NONE in
  let quiet := Scenario.skierUpdate skiing 176 10 [] TICK_NONE in
  (state skiing = STATE_SKIING /\ direction skiing = DIRECTION_DOWN
   /\ speed skiing = 6
   /\ (x (position skiing) == 0)%Q /\ (y (position skiing) == 59)%Q)
  /\ (state onRamp = STATE_JUMPING /\ direction onRamp = DIRECTION_DOWN
      /\ (x (position onRamp) == 0)%Q
      /\ (y (position onRamp) == 59 + 2 * 6)%Q
      /\ ~ (y (position onRamp) == 59 + 6)%Q)
  /\ (state quiet = STATE_SKIING /\ (y (position quiet) == 59 + 6)%Q).
Proof.
  cbv zeta. repeat split; try (vm_compute; reflexivity).
  vm_compute. discriminate.
Qed.

(** ** Input *)

(** C9: [handleInput] returns the [handled] flag.  For a dead skier it returns
    [false] and the skier as it was (state, direction, speed and position
    included).  Otherwise the flag is [true] exactly for the jump, turn-left,
    turn-right, turn-up and turn-down keys, and [false] for any other key. *)
Theorem handleInput_contract (KEYS : KeyTable) (this : Skier) (inputKey : string) :
  (state this = STATE_DEAD -> handleInput KEYS this inputKey = (this, false))
  /\ (state this <> STATE_DEAD ->
      (snd (handleInput KEYS this inputKey) = true <->
       inputKey = SPACE KEYS \/ inputKey = LEFT KEYS \/ inputKey = RIGHT KEYS
       \/ inputKey = UP KEYS \/ inputKey = DOWN KEYS)).
Proof.
  unfold handleInput, isDead. split.
  - intros H. now rewrite H.
  - intros H. apply STATES_eqb_neq in H. rewrite H.
    destruct (String.eqb_spec inputKey (SPACE KEYS)); [cbn; tauto |].
    destruct (String.eqb_spec inputKey (LEFT KEYS)); [cbn; tauto |].
    destruct (String.eqb_spec inputKey (RIGHT KEYS)); [cbn; tauto |].
    destruct (String.eqb_spec inputKey (UP KEYS)); [cbn; tauto |].
    destruct (String.eqb_spec inputKey (DOWN KEYS)); [cbn; tauto |].
    cbn. split; [discriminate | tauto].
Qed.

Lemma handleInput_contract_witness :
  handleInput Scenario.KEYS (die (new 0 0)) (LEFT Scenario.KEYS)
  = (die (new 0 0), false)
  /\ snd (handleInput Scenario.KEYS (new 0 0) (SPACE Scenario.KEYS)) = true.
Proof.
  split.
  - apply (proj1 (handleInput_contract Scenario.KEYS (die (new 0 0))
                    (LEFT Scenario.KEYS))).
    reflexivity.
  - apply (proj2 (handleInput_contract Scenario.KEYS (new 0 0)
                    (SPACE Scenario.KEYS))).
    + discriminate.
    + left. reflexivity.
Defined.

(** C10: one call of turn-left on a crashed skier sets the state to skiing,
    the speed to the starting speed and the direction to left, and in the same
    call moves [x] by the starting speed to the left, [y] unchanged; turn-right
    does the same to the right. *)
Theorem turn_while_crashed_sidesteps (this : Skier) :
  state this = STATE_CRASHED ->
  (state (turnLeft this) = STATE_SKIING
   /\ speed (turnLeft this) = STARTING_SPEED
   /\ direction (turnLeft this) = DIRECTION_LEFT
   /\ x (position (turnLeft this))
      = (x (position this) - inject_Z STARTING_SPEED)%Q
   /\ y (position (turnLeft this)) = y (position this))
  /\ (state (turnRight this) = STATE_SKIING
      /\ speed (turnRight this) = STARTING_SPEED
      /\ direction (turnRight this) = DIRECTION_RIGHT
      /\ x (position (turnRight this))
         = (x (position this) + inject_Z STARTING_SPEED)%Q
      /\ y (position (turnRight this)) = y (position this)).
Proof.
  intros H. unfold turnLeft, turnRight. know_state H. repeat split.
Qed.

Lemma turn_while_crashed_sidesteps_witness :
  let crashed := crash (new 0 0) in
  state crashed = STATE_CRASHED
  /\ state (turnLeft crashed) = STATE_SKIING
  /\ x (position (turnLeft crashed)) = (0 - inject_Z 5)%Q
  /\ x (position (turnRight crashed)) = (0 + inject_Z 5)%Q.
Proof.
  cbv zeta.
  pose proof (turn_while_crashed_sidesteps (crash (new 0 0)) eq_refl)
    as [[Hl1 [_ [_ [Hl4 _]]]] [_ [_ [_ [Hr4 _]]]]].
  repeat split; assumption.
Defined.

(** ** Speed of a stopped skier *)

(** [update] of a skier that neither skis nor jumps is the speed check alone. *)
Lemma update_stopped
    (getImage : IMAGE_NAMES -> option Image)
    (intersectTwoRects : Rect -> Rect -> bool) (k : Q) (threshold : Z)
    (this : Skier) (gameTime score : Z) (obstacles : list Obstacle.Obstacle)
    (tick : AnimationTick) :
  state this = STATE_CRASHED \/ state this = STATE_DEAD ->
  update getImage intersectTwoRects k threshold this gameTime score obstacles tick
  = increaseSpeedIfThresholdMet threshold this score.
Proof.
  intros [H | H]; unfold update; know_state H; now know_state H.
Qed.

(** C1, on the skier of a game that ran ten quiet frames (score 10, threshold
    10).  If the next [update] runs it into a tree, the skier leaves that call
    crashed with speed 1.  If instead the rhino kills it after the next
    [update], the skier is dead with speed 0, and the [update] of the frame
    after leaves it dead with speed 1.  The speed check at the end of [update]
    runs in every state. *)
Theorem update_speeds_up_a_stopped_skier :
  let skiing := Game.skier (Scenario.quietRun 10) in
  let crashed :=
    Scenario.skierUpdate skiing 176 10 [Scenario.treeOnTheWay] TICK_NONE in
  let killed := die (Scenario.skierUpdate skiing 176 10 [] TICK_NONE) in
  let dead := Scenario.skierUpdate killed 192 10 [] TICK_NONE in
  (state skiing = STATE_SKIING /\ Game.currentScore (Scenario.quietRun 10) = 10)
  /\ (state crashed = STATE_CRASHED /\ speed crashed = 1)
  /\ (state killed = STATE_DEAD /\ speed killed = 0)
  /\ (state dead = STATE_DEAD /\ speed dead = 1).
Proof. cbv zeta. repeat split; vm_compute; reflexivity. Qed.

(** ** Landing *)

(** C2, on the skier of a game that ran nine quiet frames (score 9, speed 6,
    threshold 10): the jump key starts a jump at speed 6; the speed check fires
    in the air, in the frame that is passed the score 10; when the animation
    finishes, two frames later, the skier is skiing again at speed 7, the speed
    it has at that moment, and not at the 6 it had when the jump started. *)
Theorem landing_keeps_the_speed_gained_in_the_air :
  let start := Game.skier (Scenario.quietRun 9) in
  let inTheAir := fst (handleInput Scenario.KEYS start (SPACE Scenario.KEYS)) in
  let frame10 := Scenario.skierUpdate inTheAir 160 9 [] TICK_NONE in
  let frame11 := Scenario.skierUpdate frame10 176 10 [] TICK_NONE in
  let landed := Scenario.skierUpdate frame11 192 11 [] TICK_FINISHED in
  (state start = STATE_SKIING /\ speed start = 6)
  /\ (state inTheAir = STATE_JUMPING /\ speed inTheAir = 6)
  /\ (state frame10 = STATE_JUMPING /\ speed frame10 = 6)
  /\ (state frame11 = STATE_JUMPING /\ speed frame11 = 7)
  /\ (state landed = STATE_SKIING /\ speed landed = 7).
Proof. cbv zeta. repeat split; vm_compute; reflexivity. Qed.

End SkierSpec.

(** * Properties of the frame loop *)

Module GameSpec.

Import Constants Utils.
Import Game.

Lemma isDownwardsFacing_spec (s : Skier.Skier) :
  Skier.isDownwardsFacing s = true <->
  Skier.direction s = Skier.DIRECTION_DOWN
  \/ Skier.direction s = Skier.DIRECTION_LEFT_DOWN
  \/ Skier.direction s = Skier.DIRECTION_RIGHT_DOWN.
Proof.
  unfold Skier.isDownwardsFacing.
  destruct (Z.eqb_spec (Skier.direction s) Skier.DIRECTION_DOWN); [tauto |].
  destruct (Z.eqb_spec (Skier.direction s) Skier.DIRECTION_LEFT_DOWN); [tauto |].
  destruct (Z.eqb_spec (Skier.direction s) Skier.DIRECTION_RIGHT_DOWN); [tauto |].
  split; [discriminate | tauto].
Qed.

(** The scoring step: one point exactly when the skier faces downwards and has
    a positive speed; the skier's state is not looked at. *)
Lemma updateCurrentScore_rule (this : Game) :
  skier (updateCurrentScore this) = skier this
  /\ currentScore (updateCurrentScore this)
     = (if Skier.isDownwardsFacing (skier this) && (0 <? Skier.speed (skier this))
        then currentScore this + 1 else currentScore this).
Proof.
  unfold updateCurrentScore, Skier.isMovingDownwards.
  destruct (Skier.isDownwardsFacing (skier this) && (0 <? Skier.speed (skier this)));
    now cbn.
Qed.

(** A skier facing fully left or fully right gains nothing in the scoring
    step. *)
Lemma updateCurrentScore_horizontal (this : Game) :
  Skier.direction (skier this) = Skier.DIRECTION_LEFT
  \/ Skier.direction (skier this) = Skier.DIRECTION_RIGHT ->
  updateCurrentScore this = this.
Proof.
  intros H. unfold updateCurrentScore, Skier.isMovingDownwards,
    Skier.isDownwardsFacing.
  destruct H as [H | H]; rewrite H; reflexivity.
Qed.

(** C3, with starting speed 5 and threshold 10, over quiet frames from the
    start (the skier stays skiing and facing down): the speed is 6, not 5,
    from the first frame on, when the score passed to the skier is 0, and it
    is 7 after the frame that is passed the score 10.  The list gives the
    score and the speed after 0, 1, ..., 11 frames. *)
Theorem speed_is_raised_on_the_first_frame :
  map (fun n => (currentScore (Scenario.quietRun n),
                 Skier.speed (skier (Scenario.quietRun n))))
      (seq 0 12)
  = [(0, 5); (1, 6); (2, 6); (3, 6); (4, 6); (5, 6); (6, 6); (7, 6); (8, 6);
     (9, 6); (10, 6); (11, 7)]
  /\ forallb (fun n =>
        Skier.isSkiing (skier (Scenario.quietRun n))
        && (Skier.direction (skier (Scenario.quietRun n)) =? Skier.DIRECTION_DOWN))
       (seq 0 12) = true.
Proof. split; vm_compute; reflexivity. Qed.

(** C8, on a game that ran ten quiet frames (score 10, threshold 10) and whose
    eleventh frame crashes the skier into a tree: the skier is crashed after
    that frame, with speed 1 and still facing down, and the score grows by 1
    in that frame and again in the next one, in which the crashed skier does
    not move. *)
Theorem crashed_skier_gains_score :
  let g10 := Scenario.quietRun 10 in
  let g11 := fst (Scenario.gameRun g10 (Scenario.treeFrame 176)) in
  let g12 := fst (Scenario.gameRun g11 (Scenario.quietFrame 192)) in
  (Skier.state (skier g10) = Skier.STATE_SKIING /\ currentScore g10 = 10)
  /\ (Skier.state (skier g11) = Skier.STATE_CRASHED /\ currentScore g11 = 11)
  /\ (Skier.state (skier g12) = Skier.STATE_CRASHED /\ currentScore g12 = 12)
  /\ Skier.position (skier g12) = Skier.position (skier g11).
Proof. cbv zeta. repeat split; vm_compute; reflexivity. Qed.

(** ** Frames after the skier died *)

Lemma rhinoUpdate_dead (caught : bool) (s : Skier.Skier) :
  Skier.state s = Skier.STATE_DEAD ->
  Skier.state (rhinoUpdate caught s) = Skier.STATE_DEAD
  /\ Skier.position (rhinoUpdate caught s) = Skier.position s
  /\ Skier.direction (rhinoUpdate caught s) = Skier.direction s.
Proof. intros H. destruct caught; cbn; auto. Qed.

Lemma updateCurrentScore_state (this : Game) :
  state (updateCurrentScore this) = state this.
Proof.
  unfold updateCurrentScore.
  now destruct (Skier.isMovingDownwards (skier this)).
Qed.

Section DeadSkier.

Variable GAME_WIDTH GAME_HEIGHT : Q.
Variable OBSTACLE_FREQUENCY_INCREASE_THRESHOLD : Z.
Variable getImage : IMAGE_NAMES -> option Image.
Variable intersectTwoRects : Rect -> Rect -> bool.
Variable DIAGONAL_SPEED_REDUCER : Q.
Variable SPEED_INCREASE_THRESHOLD : Z.

Local Abbreviation runFrame :=
  (run GAME_WIDTH GAME_HEIGHT OBSTACLE_FREQUENCY_INCREASE_THRESHOLD getImage
     intersectTwoRects DIAGONAL_SPEED_REDUCER SPEED_INCREASE_THRESHOLD).

Local Abbreviation updateWindow :=
  (updateGameWindow GAME_WIDTH GAME_HEIGHT OBSTACLE_FREQUENCY_INCREASE_THRESHOLD
     getImage intersectTwoRects DIAGONAL_SPEED_REDUCER SPEED_INCREASE_THRESHOLD).

(** [updateGameWindow] calls the skier's update and then the rhino's, in every
    state of the skier. *)
Lemma updateGameWindow_log (this : Game) (f : Frame) :
  exists before,
    snd (updateWindow this f)
    = before ++ [SkierUpdate (now f) (currentScore this);
                 RhinoUpdate (now f) (currentScore this)]
    /\ forall c, In c before -> isEntityDraw c = false.
Proof.
  unfold updateGameWindow. cbn.
  destruct (remIsZero (currentScore this) OBSTACLE_FREQUENCY_INCREASE_THRESHOLD).
  - eexists [_; _]. split; [reflexivity |].
    intros c [<- | [<- | []]]; reflexivity.
  - eexists [_]. split; [reflexivity |].
    intros c [<- | []]; reflexivity.
Qed.

Lemma updateGameWindow_dead (this : Game) (f : Frame) :
  Skier.state (skier this) = Skier.STATE_DEAD ->
  let this' := fst (updateWindow this f) in
  state this' = state this
  /\ Skier.state (skier this') = Skier.STATE_DEAD
  /\ Skier.position (skier this') = Skier.position (skier this)
  /\ Skier.direction (skier this') = Skier.direction (skier this).
Proof.
  intros Hd. unfold updateGameWindow. cbn.
  rewrite SkierSpec.update_stopped by (right; exact Hd).
  pose proof (SkierSpec.increaseSpeedIfThresholdMet_fields
                SPEED_INCREASE_THRESHOLD (skier this) (currentScore this))
    as [Hs [Hdir [Hpos _]]].
  cbv zeta in Hs, Hdir, Hpos. rewrite Hd in Hs.
  destruct (rhinoUpdate_dead (rhinoCatchesSkier f) _ Hs) as [Hs' [Hpos' Hdir']].
  split; [reflexivity |]. repeat split; congruence.
Qed.

(** C5, as the code has it: the frame loop does not look at the skier's state.
    Each frame run while the game is playing, with the skier dead, still calls
    the skier's update and then the rhino's update, with the frame's time and
    the current score.  What such a frame leaves alone is the skier's state
    (dead), position and direction, and it draws no skier. *)
Theorem frame_with_dead_skier (this : Game) (f : Frame) :
  state this = STATE_PLAYING ->
  Skier.state (skier this) = Skier.STATE_DEAD ->
  let this' := fst (runFrame this f) in
  let log := snd (runFrame this f) in
  (exists l1 l2,
      log = l1 ++ [SkierUpdate (now f) (currentScore this);
                   RhinoUpdate (now f) (currentScore this)] ++ l2)
  /\ (forall c, In c log -> isEntityDraw c = false)
  /\ Skier.state (skier this') = Skier.STATE_DEAD
  /\ Skier.position (skier this') = Skier.position (skier this)
  /\ Skier.direction (skier this') = Skier.direction (skier this).
Proof.
  intros Hp Hd. cbv zeta.
  destruct (updateGameWindow_log this f) as [before [Hlog Hbefore]].
  pose proof (updateGameWindow_dead this f Hd) as [Hst [Hs [Hpos Hdir]]].
  cbv zeta in Hst, Hs, Hpos, Hdir.
  unfold run, isPlaying, isPaused. rewrite Hp. cbn [STATES_eqb].
  destruct (updateWindow this f) as [g updates] eqn:E.
  cbn [fst snd] in *. subst updates.
  pose proof (updateCurrentScore_rule g) as [Hsk _].
  rewrite updateCurrentScore_state, Hst, Hp. cbn [STATES_eqb fst snd].
  rewrite Hsk. unfold drawGameWindow, skierDraw, Skier.isDead.
  rewrite Hsk, Hs.
  change (Skier.STATES_eqb Skier.STATE_DEAD Skier.STATE_DEAD) with true.
  cbv iota. repeat apply conj; try assumption; try reflexivity.
  - exists ([ClearCanvas] ++ before). eexists.
    rewrite <- !app_assoc. reflexivity.
  - intros c Hin. rewrite !in_app_iff in Hin. cbn [In] in Hin.
    intuition (subst; auto).
Qed.

(** While the game is paused, [run] updates nothing and only draws the pause
    icon. *)
Lemma run_paused (this : Game) (f : Frame) :
  state this = STATE_PAUSED -> runFrame this f = (this, [DrawPauseIcon]).
Proof.
  intros H. unfold run, isPlaying, isPaused. rewrite H. cbn. now rewrite H.
Qed.

End DeadSkier.

Lemma frame_with_dead_skier_witness :
  let g1 := fst (Scenario.gameRun (Scenario.quietRun 10) (Scenario.caughtFrame 176)) in
  let f := Scenario.quietFrame 192 in
  (state g1 = STATE_PLAYING /\ Skier.state (skier g1) = Skier.STATE_DEAD)
  /\ (exists l1 l2,
        snd (Scenario.gameRun g1 f)
        = l1 ++ [SkierUpdate (now f) (currentScore g1);
                 RhinoUpdate (now f) (currentScore g1)] ++ l2)
  /\ Skier.state (skier (fst (Scenario.gameRun g1 f))) = Skier.STATE_DEAD.
Proof.
  cbv zeta.
  pose proof
    (frame_with_dead_skier Scenario.GAME_WIDTH Scenario.GAME_HEIGHT
       Scenario.OBSTACLE_FREQUENCY_INCREASE_THRESHOLD Scenario.getImage
       Scenario.intersectTwoRects Scenario.DIAGONAL_SPEED_REDUCER
       Scenario.SPEED_INCREASE_THRESHOLD
       (fst (Scenario.gameRun (Scenario.quietRun 10) (Scenario.caughtFrame 176)))
       (Scenario.quietFrame 192) eq_refl eq_refl)
    as [Hlog [_ [Hdead _]]].
  split; [split; reflexivity |]. split; assumption.
Defined.

(** C5 fails on the code: a game runs ten quiet frames and the rhino catches
    the skier in the eleventh; in the twelfth frame the skier is dead and the
    log of the frame holds a call of the skier's update and a call of the
    rhino's update. *)
Lemma updates_are_called_after_death :
  let g1 := fst (Scenario.gameRun (Scenario.quietRun 10) (Scenario.caughtFrame 176)) in
  let log := snd (Scenario.gameRun g1 (Scenario.quietFrame 192)) in
  Skier.state (skier g1) = Skier.STATE_DEAD
  /\ ~ (forall c, In c log -> isSkierUpdate c = false /\ isRhinoUpdate c = false).
Proof.
  cbv zeta. split; [reflexivity |].
  intros H.
  destruct (H (SkierUpdate 192 10)) as [Habs _]; [| discriminate Habs].
  vm_compute. tauto.
Qed.

End GameSpec.

(** * Further properties of the skier *)

Module SkierMore.

Import Constants Utils Skier Invariants.
Import SkierSpec.

(** Splits on every test of the goal. *)
Ltac split_ifs :=
  repeat match goal with
         | |- context [if ?b then _ else _] => destruct b eqn:?
         end.

Ltac ok_bash :=
  unfold skierOk, DIRECTION_LEFT, DIRECTION_RIGHT in *; cbn in *;
  repeat split; try lia; try discriminate; try tauto.

Lemma skierOk_turnLeft (this : Skier) : skierOk this -> skierOk (turnLeft this).
Proof.
  intros H. unfold turnLeft, recoverFromCrash, setDirection, setDirectionalImage,
    moveSkierLeft.
  destruct (isCrashed this); cbn.
  - ok_bash.
  - destruct (negb (STATES_eqb (state this) STATE_JUMPING)); [| exact H].
    destruct (Z.eqb_spec (direction this) DIRECTION_LEFT).
    + ok_bash.
    + unfold skierOk, DIRECTION_LEFT, DIRECTION_RIGHT, DIRECTION_IMAGES,
        DIRECTION_LEFT_DOWN, DIRECTION_DOWN, DIRECTION_RIGHT_DOWN in *. cbn.
      repeat split; try lia.
      destruct H as [Hd _].
      assert (Hc : direction this = 1 \/ direction this = 2
                   \/ direction this = 3 \/ direction this = 4) by lia.
      destruct Hc as [-> | [-> | [-> | ->]]]; discriminate.
Qed.

Lemma skierOk_turnRight (this : Skier) : skierOk this -> skierOk (turnRight this).
Proof.
  intros H. unfold turnRight, recoverFromCrash, setDirection, setDirectionalImage,
    moveSkierRight.
  destruct (isCrashed this); cbn.
  - ok_bash.
  - destruct (negb (STATES_eqb (state this) STATE_JUMPING)); [| exact H].
    destruct (Z.eqb_spec (direction this) DIRECTION_RIGHT).
    + ok_bash.
    + unfold skierOk, DIRECTION_LEFT, DIRECTION_RIGHT, DIRECTION_IMAGES,
        DIRECTION_LEFT_DOWN, DIRECTION_DOWN, DIRECTION_RIGHT_DOWN in *. cbn.
      repeat split; try lia.
      destruct H as [Hd _].
      assert (Hc : direction this = 0 \/ direction this = 1
                   \/ direction this = 2 \/ direction this = 3) by lia.
      destruct Hc as [-> | [-> | [-> | ->]]]; discriminate.
Qed.

Lemma skierOk_turnUp (this : Skier) : skierOk this -> skierOk (turnUp this).
Proof. intros H. unfold turnUp, moveSkierUp. split_ifs; ok_bash. Qed.

Lemma skierOk_turnDown (this : Skier) : skierOk this -> skierOk (turnDown this).
Proof. intros H. unfold turnDown. split_ifs; ok_bash. Qed.

Lemma skierOk_jump (this : Skier) : skierOk this -> skierOk (jump this).
Proof. intros H. unfold jump. split_ifs; ok_bash. Qed.

Lemma skierOk_crash (this : Skier) : skierOk this -> skierOk (crash this).
Proof. intros H. ok_bash. Qed.

Lemma skierOk_die (this : Skier) : skierOk this -> skierOk (die this).
Proof. intros H. ok_bash. Qed.

Lemma skierOk_move (k : Q) (this : Skier) : skierOk this -> skierOk (move k this).
Proof.
  intros H. destruct (move_keeps k this) as [_ [Hs [Hd Hi]]].
  unfold skierOk. now rewrite Hs, Hd, Hi.
Qed.

Lemma skierOk_animate (this : Skier) (t : Z) (tick : AnimationTick) :
  skierOk this -> skierOk (animate this t tick).
Proof. intros H. destruct tick; ok_bash. Qed.

Lemma skierOk_interactWithObstacle (this : Skier) (o : IMAGE_NAMES) :
  skierOk this -> skierOk (interactWithObstacle this o).
Proof.
  intros H. unfold interactWithObstacle, interactWhileSkiing, interactWhileJumping.
  destruct (STATES_eqb (state this) STATE_SKIING).
  - destruct (IMAGE_NAMES_eqb o JUMP_RAMP).
    + pose proof (skierOk_jump _ H) as Hj.
      split_ifs; auto using skierOk_crash.
    + pose proof (skierOk_crash _ H) as Hc.
      split_ifs; auto using skierOk_crash.
  - split_ifs; auto using skierOk_crash.
Qed.

Lemma skierOk_checkIfHitObstacle
    (getImage : IMAGE_NAMES -> option Image)
    (intersectTwoRects : Rect -> Rect -> bool)
    (this : Skier) (obstacles : list Obstacle.Obstacle) :
  skierOk this -> skierOk (checkIfHitObstacle getImage intersectTwoRects this obstacles).
Proof.
  intros H. unfold checkIfHitObstacle.
  destruct (getBounds getImage this); [| exact H].
  destruct (findInteraction intersectTwoRects r obstacles None) as [[o |] [n |]];
    auto using skierOk_interactWithObstacle.
Qed.

Lemma skierOk_increaseSpeedIfThresholdMet (threshold : Z) (this : Skier) (score : Z) :
  skierOk this -> skierOk (increaseSpeedIfThresholdMet threshold this score).
Proof.
  intros H. unfold increaseSpeedIfThresholdMet. split_ifs; ok_bash.
Qed.

Lemma skierOk_update
    (getImage : IMAGE_NAMES -> option Image)
    (intersectTwoRects : Rect -> Rect -> bool) (k : Q) (threshold : Z)
    (this : Skier) (gameTime score : Z) (obstacles : list Obstacle.Obstacle)
    (tick : AnimationTick) :
  skierOk this ->
  skierOk (update getImage intersectTwoRects k threshold this gameTime score
             obstacles tick).
Proof.
  intros H. unfold update.
  apply skierOk_increaseSpeedIfThresholdMet.
  set (s1 := if isSkiing this then _ else this).
  assert (H1 : skierOk s1).
  { subst s1. destruct (isSkiing this); [| exact H].
    now apply skierOk_checkIfHitObstacle, skierOk_move. }
  destruct (isJumping s1); [| exact H1].
  now apply skierOk_checkIfHitObstacle, skierOk_animate, skierOk_move.
Qed.

Lemma skierOk_handleInput (KEYS : KeyTable) (this : Skier) (key : string) :
  skierOk this -> skierOk (fst (handleInput KEYS this key)).
Proof.
  intros H. unfold handleInput.
  split_ifs; cbn [fst];
    auto using skierOk_jump, skierOk_turnLeft, skierOk_turnRight, skierOk_turnUp,
      skierOk_turnDown.
Qed.

(** X1: the direction of the skier stays one of the five constants (a turn at
    an extreme moves the skier instead of turning it), the speed stays
    non-negative and the image name stays defined, through every key press,
    every [update] and [die]. *)
Theorem skier_invariant
    (KEYS : KeyTable) (getImage : IMAGE_NAMES -> option Image)
    (intersectTwoRects : Rect -> Rect -> bool) (k : Q) (threshold : Z)
    (this : Skier) :
  skierOk this ->
  (forall key, skierOk (fst (handleInput KEYS this key)))
  /\ (forall gameTime score obstacles tick,
        skierOk (update getImage intersectTwoRects k threshold this gameTime
                   score obstacles tick))
  /\ skierOk (die this).
Proof.
  intros H. split; [| split]; intros;
    auto using skierOk_handleInput, skierOk_update, skierOk_die.
Qed.

Lemma skier_invariant_witness :
  skierOk (new 0 0)
  /\ skierOk (fst (handleInput Scenario.KEYS (new 0 0) (LEFT Scenario.KEYS)))
  /\ skierOk (Scenario.skierUpdate (new 0 0) 16 0 [Scenario.treeOnTheWay] TICK_NONE).
Proof.
  assert (H : skierOk (new 0 0)).
  { unfold skierOk, DIRECTION_LEFT, DIRECTION_RIGHT. cbn.
    unfold DIRECTION_DOWN, STARTING_SPEED. repeat split; try lia. discriminate. }
  destruct (skier_invariant Scenario.KEYS Scenario.getImage
              Scenario.intersectTwoRects Scenario.DIAGONAL_SPEED_REDUCER
              Scenario.SPEED_INCREASE_THRESHOLD (new 0 0) H) as [Hk [Hu _]].
  split; [exact H |]. split; [apply Hk | apply Hu].
Defined.

(** ** Turning *)

Lemma turnLeft_skiing (this : Skier) :
  state this = STATE_SKIING ->
  turnLeft this
  = if direction this =? DIRECTION_LEFT then moveSkierLeft this
    else setDirection this (direction this - 1).
Proof. intros H. unfold turnLeft. know_state H. now rewrite H. Qed.

Lemma turnRight_skiing (this : Skier) :
  state this = STATE_SKIING ->
  turnRight this
  = if direction this =? DIRECTION_RIGHT then moveSkierRight this
    else setDirection this (direction this + 1).
Proof. intros H. unfold turnRight. know_state H. now rewrite H. Qed.

(** X2: the turn-left key pressed [n] times on a skiing skier whose direction
    [d] is one of the five constants: the direction goes down one step per
    press until it is [DIRECTION_LEFT] and stays there; each press after that
    moves the skier [STARTING_SPEED] to the left.  The skier stays skiing, at
    the same height and speed. *)
Theorem turnLeft_repeated (this : Skier) (n : nat) :
  state this = STATE_SKIING ->
  DIRECTION_LEFT <= direction this <= DIRECTION_RIGHT ->
  let after := Nat.iter n turnLeft this in
  state after = STATE_SKIING
  /\ direction after = Z.max DIRECTION_LEFT (direction this - Z.of_nat n)
  /\ (x (position after)
      == x (position this)
         - inject_Z (STARTING_SPEED * Z.max 0 (Z.of_nat n - direction this)))%Q
  /\ y (position after) = y (position this)
  /\ speed after = speed this.
Proof.
  intros Hs Hd. cbv zeta. unfold DIRECTION_LEFT, DIRECTION_RIGHT in *.
  induction n as [| n IH].
  - change (Nat.iter 0 turnLeft this) with this. repeat split; try assumption; try lia.
    replace (Z.max 0 (Z.of_nat 0 - direction this)) with 0 by lia.
    cbn. ring.
  - rewrite Nat.iter_succ. destruct IH as [IHs [IHd [IHx [IHy IHv]]]].
    rewrite (turnLeft_skiing _ IHs). unfold DIRECTION_LEFT.
    destruct (Z.eqb_spec (direction (Nat.iter n turnLeft this)) 0) as [E | E].
    + unfold moveSkierLeft, setDirection, setDirectionalImage, set_position,
        set_direction, set_imageName;
        cbn [state direction position speed x y imageName].
      repeat split; try assumption; try lia.
      rewrite IHx.
      replace (Z.max 0 (Z.of_nat (S n) - direction this))
        with (Z.max 0 (Z.of_nat n - direction this) + 1) by lia.
      rewrite Z.mul_add_distr_l, inject_Z_plus, Z.mul_1_r. ring.
    + unfold moveSkierLeft, setDirection, setDirectionalImage, set_position,
        set_direction, set_imageName;
        cbn [state direction position speed x y imageName].
      repeat split; try assumption; try lia.
      rewrite IHx.
      replace (Z.max 0 (Z.of_nat (S n) - direction this)) with 0 by lia.
      replace (Z.max 0 (Z.of_nat n - direction this)) with 0 by lia.
      reflexivity.
Qed.

Lemma turnLeft_repeated_witness :
  let after := Nat.iter 5 turnLeft (new 0 0) in
  direction after = Z.max DIRECTION_LEFT (DIRECTION_DOWN - 5)
  /\ (x (position after) == 0 - inject_Z (STARTING_SPEED * Z.max 0 (5 - 2)))%Q.
Proof.
  cbv zeta.
  destruct (turnLeft_repeated (new 0 0) 5 eq_refl) as [_ [Hd [Hx _]]].
  - unfold DIRECTION_LEFT, DIRECTION_RIGHT. cbn. unfold DIRECTION_DOWN. lia.
  - split; [exact Hd | exact Hx].
Defined.

(** X3: the same for the turn-right key: the direction goes up one step per
    press until it is [DIRECTION_RIGHT], and each further press moves the skier
    [STARTING_SPEED] to the right. *)
Theorem turnRight_repeated (this : Skier) (n : nat) :
  state this = STATE_SKIING ->
  DIRECTION_LEFT <= direction this <= DIRECTION_RIGHT ->
  let after := Nat.iter n turnRight this in
  state after = STATE_SKIING
  /\ direction after = Z.min DIRECTION_RIGHT (direction this + Z.of_nat n)
  /\ (x (position after)
      == x (position this)
         + inject_Z (STARTING_SPEED
                     * Z.max 0 (Z.of_nat n - (DIRECTION_RIGHT - direction this))))%Q
  /\ y (position after) = y (position this)
  /\ speed after = speed this.
Proof.
  intros Hs Hd. cbv zeta. unfold DIRECTION_LEFT, DIRECTION_RIGHT in *.
  induction n as [| n IH].
  - change (Nat.iter 0 turnRight this) with this. repeat split; try assumption; try lia.
    replace (Z.max 0 (Z.of_nat 0 - (4 - direction this))) with 0 by lia.
    cbn. ring.
  - rewrite Nat.iter_succ. destruct IH as [IHs [IHd [IHx [IHy IHv]]]].
    rewrite (turnRight_skiing _ IHs). unfold DIRECTION_RIGHT.
    destruct (Z.eqb_spec (direction (Nat.iter n turnRight this)) 4) as [E | E].
    + unfold moveSkierRight, setDirection, setDirectionalImage, set_position,
        set_direction, set_imageName;
        cbn [state direction position speed x y imageName].
      repeat split; try assumption; try lia.
      rewrite IHx.
      replace (Z.max 0 (Z.of_nat (S n) - (4 - direction this)))
        with (Z.max 0 (Z.of_nat n - (4 - direction this)) + 1) by lia.
      rewrite Z.mul_add_distr_l, inject_Z_plus, Z.mul_1_r. ring.
    + unfold moveSkierRight, setDirection, setDirectionalImage, set_position,
        set_direction, set_imageName;
        cbn [state direction position speed x y imageName].
      repeat split; try assumption; try lia.
      rewrite IHx.
      replace (Z.max 0 (Z.of_nat (S n) - (4 - direction this))) with 0 by lia.
      replace (Z.max 0 (Z.of_nat n - (4 - direction this))) with 0 by lia.
      reflexivity.
Qed.

Lemma turnRight_repeated_witness :
  let after := Nat.iter 3 turnRight (new 0 0) in
  direction after = Z.min DIRECTION_RIGHT (DIRECTION_DOWN + 3)
  /\ (x (position after)
      == 0 + inject_Z (STARTING_SPEED * Z.max 0 (3 - (DIRECTION_RIGHT - 2))))%Q.
Proof.
  cbv zeta.
  destruct (turnRight_repeated (new 0 0) 3 eq_refl) as [_ [Hd [Hx _]]].
  - unfold DIRECTION_LEFT, DIRECTION_RIGHT. cbn. unfold DIRECTION_DOWN. lia.
  - split; [exact Hd | exact Hx].
Defined.

(** X4: a crashed skier answers only the turn-left and turn-right keys: any
    other key, the jump, turn-up and turn-down keys included, leaves it exactly
    as it was. *)
Theorem crashed_skier_ignores_other_keys
    (KEYS : KeyTable) (this : Skier) (key : string) :
  state this = STATE_CRASHED ->
  key <> LEFT KEYS -> key <> RIGHT KEYS ->
  fst (handleInput KEYS this key) = this.
Proof.
  intros H Hl Hr. unfold handleInput, jump, turnUp, turnDown. know_state H.
  apply String.eqb_neq in Hl, Hr. rewrite Hl, Hr.
  split_ifs; reflexivity.
Qed.

Lemma crashed_skier_ignores_other_keys_witness :
  fst (handleInput Scenario.KEYS (crash (new 0 0)) (DOWN Scenario.KEYS))
  = crash (new 0 0).
Proof.
  apply crashed_skier_ignores_other_keys; [reflexivity | discriminate | discriminate].
Defined.

(** ** Collisions *)

Section Collisions.

Variable getImage : IMAGE_NAMES -> option Image.
Variable intersectTwoRects : Rect -> Rect -> bool.

Local Abbreviation find := (findInteraction intersectTwoRects).
Local Abbreviation check := (checkIfHitObstacle getImage intersectTwoRects).
Local Abbreviation passes := (misses intersectTwoRects).

Lemma findInteraction_hit (b ob : Rect) (pre rest : list Obstacle.Obstacle)
    (o : Obstacle.Obstacle) (n0 : option IMAGE_NAMES) :
  Forall (passes b) pre ->
  Obstacle.getBounds o = Some ob -> intersectTwoRects b ob = true ->
  find b (pre ++ o :: rest) n0 = (Some o, Some (Obstacle.imageName o)).
Proof.
  intros Hpre Ho Hi. revert n0.
  induction Hpre as [| p pre Hp _ IH]; intros n0; cbn.
  - now rewrite Ho, Hi.
  - unfold misses in Hp. destruct (Obstacle.getBounds p); [| apply IH].
    rewrite Hp. apply IH.
Qed.

Lemma findInteraction_miss (b : Rect) (obstacles : list Obstacle.Obstacle)
    (n0 : option IMAGE_NAMES) :
  Forall (passes b) obstacles -> fst (find b obstacles n0) = None.
Proof.
  intros H. revert n0.
  induction H as [| p rest Hp _ IH]; intros n0; cbn; [reflexivity |].
  unfold misses in Hp. destruct (Obstacle.getBounds p); [| apply IH].
  rewrite Hp. apply IH.
Qed.

Lemma findInteraction_sound (b : Rect) (obstacles : list Obstacle.Obstacle)
    (n0 n : option IMAGE_NAMES) (o : Obstacle.Obstacle) :
  find b obstacles n0 = (Some o, n) ->
  n = Some (Obstacle.imageName o) /\ In o obstacles
  /\ exists ob, Obstacle.getBounds o = Some ob /\ intersectTwoRects b ob = true.
Proof.
  revert n0. induction obstacles as [| p rest IH]; intros n0; cbn.
  - discriminate.
  - destruct (Obstacle.getBounds p) as [pb |] eqn:Ep.
    + destruct (intersectTwoRects b pb) eqn:Ei.
      * intros [= <- <-]. repeat split; [now left |]. now exists pb.
      * intros H. destruct (IH _ H) as [Hn [Hin Hex]]. auto.
    + intros H. destruct (IH _ H) as [Hn [Hin Hex]]. auto.
Qed.

(** X5: the collision check acts on the first obstacle of the list whose
    bounds are loaded and intersect the skier's: obstacles before it that have
    no bounds or do not intersect are passed over, obstacles after it are not
    looked at, and the interaction is the one for that obstacle's image name. *)
Theorem checkIfHitObstacle_first_hit (this : Skier) (b ob : Rect)
    (pre rest : list Obstacle.Obstacle) (o : Obstacle.Obstacle) :
  getBounds getImage this = Some b ->
  Forall (passes b) pre ->
  Obstacle.getBounds o = Some ob -> intersectTwoRects b ob = true ->
  check this (pre ++ o :: rest) = interactWithObstacle this (Obstacle.imageName o).
Proof.
  intros Hb Hpre Ho Hi. unfold checkIfHitObstacle. rewrite Hb.
  now rewrite (findInteraction_hit b ob pre rest o None Hpre Ho Hi).
Qed.

(** X6: the collision check does nothing when the skier's image is not loaded
    (no bounds), and nothing when every obstacle either has no bounds or does
    not intersect the skier's bounds; the empty list is such a case. *)
Theorem checkIfHitObstacle_no_hit (this : Skier) (obstacles : list Obstacle.Obstacle) :
  (forall b, getBounds getImage this = Some b -> Forall (passes b) obstacles) ->
  check this obstacles = this.
Proof.
  intros H. unfold checkIfHitObstacle.
  destruct (getBounds getImage this) as [b |]; [| reflexivity].
  pose proof (findInteraction_miss b obstacles None (H b eq_refl)) as Hm.
  destruct (find b obstacles None) as [[o |] n]; [discriminate | reflexivity].
Qed.

(** X7: whatever the list, the collision check either leaves the skier as it
    is or performs exactly one interaction, with an obstacle of the list whose
    bounds intersect the skier's. *)
Theorem checkIfHitObstacle_one_interaction (this : Skier)
    (obstacles : list Obstacle.Obstacle) :
  check this obstacles = this
  \/ exists b o ob,
       getBounds getImage this = Some b /\ In o obstacles
       /\ Obstacle.getBounds o = Some ob /\ intersectTwoRects b ob = true
       /\ check this obstacles = interactWithObstacle this (Obstacle.imageName o).
Proof.
  unfold checkIfHitObstacle.
  destruct (getBounds getImage this) as [b |]; [| now left].
  destruct (find b obstacles None) as [[o |] n] eqn:E; [| now left].
  destruct (findInteraction_sound _ _ _ _ _ E) as [-> [Hin [ob [Ho Hi]]]].
  right. exists b, o, ob. auto.
Qed.

(** X8: the skier's collision box, when its image is loaded: as wide as the
    image and centred on the skier's [x]; in height the band from half the
    image height above the position to a quarter above it.  With no image
    name or no loaded image there are no bounds. *)
Theorem getBounds_geometry (this : Skier) :
  match getBounds getImage this with
  | Some r =>
      exists name image,
        imageName this = Some name /\ getImage name = Some image
        /\ (right r - left r == width image)%Q
        /\ (left r + right r == 2 * x (position this))%Q
        /\ (top r == y (position this) - height image / 2)%Q
        /\ (bottom r - top r == height image / 4)%Q
  | None =>
      imageName this = None
      \/ exists name, imageName this = Some name /\ getImage name = None
  end.
Proof.
  unfold getBounds.
  destruct (imageName this) as [name |]; [| now left].
  destruct (getImage name) as [image |] eqn:E.
  - exists name, image. cbn. repeat split; try assumption; try reflexivity; field.
  - right. now exists name.
Qed.

End Collisions.

Lemma checkIfHitObstacle_first_hit_witness :
  checkIfHitObstacle Scenario.getImage Scenario.intersectTwoRects (new 0 65)
    ([Scenario.unloadedTree; Scenario.treeFarAway]
       ++ Scenario.rampOnTheWay :: [Scenario.treeOnTheWay])
  = interactWithObstacle (new 0 65) JUMP_RAMP.
Proof.
  eapply (checkIfHitObstacle_first_hit Scenario.getImage Scenario.intersectTwoRects
            _ _ Scenario.boundsOnTheWay).
  - reflexivity.
  - constructor; [exact I |]. constructor; [vm_compute; reflexivity |]. constructor.
  - reflexivity.
  - vm_compute. reflexivity.
Defined.

Lemma checkIfHitObstacle_no_hit_witness :
  checkIfHitObstacle Scenario.getImage Scenario.intersectTwoRects (new 0 65)
    [Scenario.unloadedTree; Scenario.treeFarAway] = new 0 65.
Proof.
  apply checkIfHitObstacle_no_hit.
  intros b [= <-].
  constructor; [exact I |]. constructor; [vm_compute; reflexivity |]. constructor.
Defined.

(** ** What a frame does to the position *)

Lemma interactWithObstacle_keeps (this : Skier) (o : IMAGE_NAMES) :
  position (interactWithObstacle this o) = position this
  /\ direction (interactWithObstacle this o) = direction this.
Proof.
  unfold interactWithObstacle, interactWhileSkiing, interactWhileJumping, jump.
  split_ifs; now cbn.
Qed.

Lemma checkIfHitObstacle_keeps
    (getImage : IMAGE_NAMES -> option Image)
    (intersectTwoRects : Rect -> Rect -> bool)
    (this : Skier) (obstacles : list Obstacle.Obstacle) :
  position (checkIfHitObstacle getImage intersectTwoRects this obstacles)
  = position this
  /\ direction (checkIfHitObstacle getImage intersectTwoRects this obstacles)
     = direction this.
Proof.
  unfold checkIfHitObstacle.
  destruct (getBounds getImage this); [| now split].
  destruct (findInteraction intersectTwoRects r obstacles None) as [[o |] [n |]];
    try now split.
  apply interactWithObstacle_keeps.
Qed.

Lemma animate_keeps (this : Skier) (t : Z) (tick : AnimationTick) :
  position (animate this t tick) = position this
  /\ direction (animate this t tick) = direction this.
Proof. destruct tick; now cbn. Qed.

Lemma diagonal_step_nonneg (k : Q) (v : Z) :
  0 <= v -> (0 < k)%Q -> (0 <= inject_Z v / k)%Q.
Proof.
  intros Hv Hk. apply Qle_shift_div_l; [assumption |].
  rewrite Qmult_0_l. change 0%Q with (inject_Z 0). now rewrite <- Zle_Qle.
Qed.

Lemma move_downhill (k : Q) (this : Skier) :
  0 <= speed this -> (0 < k)%Q ->
  (y (position this) <= y (position (move k this)))%Q.
Proof.
  intros Hv Hk. pose proof (diagonal_step_nonneg k _ Hv Hk) as Hq.
  assert (Hz : (0 <= inject_Z (speed this))%Q).
  { change 0%Q with (inject_Z 0). now rewrite <- Zle_Qle. }
  unfold move. split_ifs; cbn; lra.
Qed.

Lemma move_horizontal (k : Q) (this : Skier) :
  direction this = DIRECTION_LEFT \/ direction this = DIRECTION_RIGHT ->
  move k this = this.
Proof. intros [H | H]; unfold move; rewrite H; reflexivity. Qed.

Section Frames.

Variable getImage : IMAGE_NAMES -> option Image.
Variable intersectTwoRects : Rect -> Rect -> bool.
Variable k : Q.
Variable threshold : Z.

Local Abbreviation frame := (update getImage intersectTwoRects k threshold).

(** X9: [update] never moves the skier up the hill: with a positive diagonal
    constant and a non-negative speed, [y] after the call is at least [y]
    before it, in every state, with any obstacles and at any point of the jump
    animation.  (Only the turn-up key moves a skier up.) *)
Theorem update_never_moves_uphill (this : Skier) (gameTime score : Z)
    (obstacles : list Obstacle.Obstacle) (tick : AnimationTick) :
  skierOk this -> (0 < k)%Q ->
  (y (position this)
   <= y (position (frame this gameTime score obstacles tick)))%Q.
Proof.
  intros H Hk. unfold update.
  match goal with
  | |- context [increaseSpeedIfThresholdMet threshold ?s score] =>
      destruct (increaseSpeedIfThresholdMet_fields threshold s score)
        as [_ [_ [Hp _]]]; cbv zeta in Hp; rewrite Hp; clear Hp
  end.
  set (s1 := if isSkiing this then _ else this).
  assert (H1 : skierOk s1 /\ (y (position this) <= y (position s1))%Q).
  { subst s1. destruct (isSkiing this).
    - split; [now apply skierOk_checkIfHitObstacle, skierOk_move |].
      destruct (checkIfHitObstacle_keeps getImage intersectTwoRects
                  (move k this) obstacles) as [-> _].
      apply move_downhill; [apply H | exact Hk].
    - split; [exact H | apply Qle_refl]. }
  destruct H1 as [Hok1 Hy1].
  destruct (isJumping s1); [| exact Hy1].
  destruct (checkIfHitObstacle_keeps getImage intersectTwoRects
              (animate (move k s1) gameTime tick) obstacles) as [-> _].
  destruct (animate_keeps (move k s1) gameTime tick) as [-> _].
  eapply Qle_trans; [exact Hy1 |].
  apply move_downhill; [apply Hok1 | exact Hk].
Qed.

Lemma update_horizontal (this : Skier)
    (gameTime score : Z) (obstacles : list Obstacle.Obstacle)
    (tick : AnimationTick) :
  direction this = DIRECTION_LEFT \/ direction this = DIRECTION_RIGHT ->
  position (frame this gameTime score obstacles tick) = position this
  /\ direction (frame this gameTime score obstacles tick) = direction this.
Proof.
  intros Hd. unfold update.
  match goal with
  | |- context [increaseSpeedIfThresholdMet threshold ?s score] =>
      destruct (increaseSpeedIfThresholdMet_fields threshold s score)
        as [_ [Hdir [Hp _]]]; cbv zeta in Hp, Hdir; rewrite Hp, Hdir;
      clear Hp Hdir
  end.
  set (s1 := if isSkiing this then _ else this).
  assert (H1 : position s1 = position this /\ direction s1 = direction this).
  { subst s1. destruct (isSkiing this); [| now split].
    rewrite (move_horizontal k this Hd). apply checkIfHitObstacle_keeps. }
  destruct H1 as [Hp1 Hd1].
  destruct (isJumping s1); [| now split].
  assert (Hd1' : direction s1 = DIRECTION_LEFT \/ direction s1 = DIRECTION_RIGHT)
    by (now rewrite Hd1).
  rewrite (move_horizontal k s1 Hd1').
  destruct (checkIfHitObstacle_keeps getImage intersectTwoRects
              (animate s1 gameTime tick) obstacles) as [-> ->].
  destruct (animate_keeps s1 gameTime tick) as [-> ->]. now split.
Qed.

(** X10: a skier facing fully left or fully right is not moved by [update], in
    any state and whatever it collides with: position and direction are the
    same after the call. *)
Theorem update_keeps_a_horizontal_skier_in_place (this : Skier)
    (gameTime score : Z) (obstacles : list Obstacle.Obstacle)
    (tick : AnimationTick) :
  direction this = DIRECTION_LEFT \/ direction this = DIRECTION_RIGHT ->
  position (frame this gameTime score obstacles tick) = position this
  /\ direction (frame this gameTime score obstacles tick) = direction this.
Proof. exact (update_horizontal this gameTime score obstacles tick). Qed.

(** With no obstacle around, the frame of a skiing skier that faces fully left
    or right is the speed check alone. *)
Lemma update_skiing_horizontal_quiet (this : Skier) (gameTime score : Z)
    (tick : AnimationTick) :
  state this = STATE_SKIING ->
  direction this = DIRECTION_LEFT \/ direction this = DIRECTION_RIGHT ->
  frame this gameTime score [] tick
  = increaseSpeedIfThresholdMet threshold this score.
Proof.
  intros Hs Hd. unfold update. know_state Hs.
  rewrite (move_horizontal k this Hd).
  assert (Hc : checkIfHitObstacle getImage intersectTwoRects this [] = this).
  { unfold checkIfHitObstacle. now destruct (getBounds getImage this). }
  rewrite Hc. now know_state Hs.
Qed.

(** X11: the frame in which the jump animation finishes checks collisions as
    a skiing skier, because [animate] runs the landing callback before
    [checkIfHitObstacle]: an obstacle other than the ramp under the skier in
    that frame crashes it, a rock included, while in a frame of the jump in
    which the animation goes on an obstacle of [JUMPABLE_OBSTACLES] leaves it
    jumping. *)
Theorem landing_frame_collides_as_skiing (this : Skier) (gameTime score : Z)
    (o : Obstacle.Obstacle) (rest : list Obstacle.Obstacle)
    (tick : AnimationTick) (b ob : Rect) :
  state this = STATE_JUMPING ->
  getBounds getImage (animate (move k this) gameTime tick) = Some b ->
  Obstacle.getBounds o = Some ob -> intersectTwoRects b ob = true ->
  (tick = TICK_FINISHED -> Obstacle.imageName o <> JUMP_RAMP ->
   state (frame this gameTime score (o :: rest) tick) = STATE_CRASHED)
  /\ (tick <> TICK_FINISHED -> In (Obstacle.imageName o) JUMPABLE_OBSTACLES ->
      state (frame this gameTime score (o :: rest) tick) = STATE_JUMPING).
Proof.
  intros Hs Hb Ho Hi.
  assert (Hu : frame this gameTime score (o :: rest) tick
               = increaseSpeedIfThresholdMet threshold
                   (interactWithObstacle (animate (move k this) gameTime tick)
                      (Obstacle.imageName o)) score).
  { unfold update. know_state Hs.
    destruct (move_keeps k this) as [Hms _]. rewrite Hs in Hms.
    unfold isJumping. rewrite Hs. cbn [STATES_eqb].
    change (STATES_eqb STATE_JUMPING STATE_JUMPING) with true. cbv iota.
    unfold checkIfHitObstacle. rewrite Hb. cbn [findInteraction].
    now rewrite Ho, Hi. }
  rewrite Hu.
  destruct (increaseSpeedIfThresholdMet_fields threshold
              (interactWithObstacle (animate (move k this) gameTime tick)
                 (Obstacle.imageName o)) score) as [-> _].
  destruct (move_keeps k this) as [Hms _]. rewrite Hs in Hms.
  split.
  - intros -> Hn. unfold interactWithObstacle, interactWhileSkiing. cbn.
    destruct (IMAGE_NAMES_eqb (Obstacle.imageName o) JUMP_RAMP) eqn:E.
    + apply IMAGE_NAMES_eqb_eq in E. contradiction.
    + reflexivity.
  - intros Ht Hin. apply includes_In in Hin.
    assert (Hst : state (animate (move k this) gameTime tick) = STATE_JUMPING).
    { destruct tick; [exact Hms | exact Hms | contradiction]. }
    unfold interactWithObstacle, interactWhileJumping. rewrite Hst, Hin. cbn.
    now rewrite Hst.
Qed.

(** Apart from the frame in which a skiing skier starts to jump, [update]
    moves a skiing or jumping skier by one call of [move], and a crashed or
    dead skier not at all. *)
Lemma update_moves_once (this : Skier) (gameTime score : Z)
    (obstacles : list Obstacle.Obstacle) (tick : AnimationTick) :
  (state this = STATE_JUMPING ->
   position (frame this gameTime score obstacles tick) = position (move k this))
  /\ (state this = STATE_SKIING ->
      state (checkIfHitObstacle getImage intersectTwoRects (move k this) obstacles)
      <> STATE_JUMPING ->
      position (frame this gameTime score obstacles tick) = position (move k this))
  /\ (state this = STATE_CRASHED \/ state this = STATE_DEAD ->
      position (frame this gameTime score obstacles tick) = position this).
Proof.
  repeat apply conj.
  - intros Hs. unfold update. know_state Hs. know_state Hs.
    match goal with
    | |- context [increaseSpeedIfThresholdMet threshold ?s score] =>
        destruct (increaseSpeedIfThresholdMet_fields threshold s score)
          as [_ [_ [Hp _]]]; cbv zeta in Hp; rewrite Hp; clear Hp
    end.
    destruct (checkIfHitObstacle_keeps getImage intersectTwoRects
                (animate (move k this) gameTime tick) obstacles) as [-> _].
    now destruct (animate_keeps (move k this) gameTime tick) as [-> _].
  - intros Hs Hn. unfold update. know_state Hs.
    apply STATES_eqb_neq in Hn.
    match goal with
    | |- context [increaseSpeedIfThresholdMet threshold ?s score] =>
        destruct (increaseSpeedIfThresholdMet_fields threshold s score)
          as [_ [_ [Hp _]]]; cbv zeta in Hp; rewrite Hp; clear Hp
    end.
    unfold isJumping. rewrite Hn.
    now destruct (checkIfHitObstacle_keeps getImage intersectTwoRects
                    (move k this) obstacles) as [-> _].
  - intros Hs. rewrite update_stopped by exact Hs.
    apply increaseSpeedIfThresholdMet_fields.
Qed.

End Frames.

Lemma skierOk_new (x0 y0 : Q) : skierOk (new x0 y0).
Proof.
  unfold skierOk, DIRECTION_LEFT, DIRECTION_RIGHT. cbn.
  unfold DIRECTION_DOWN, STARTING_SPEED. repeat split; try lia. discriminate.
Qed.

Lemma update_never_moves_uphill_witness :
  (y (position (new 0 0))
   <= y (position (Scenario.skierUpdate (new 0 0) 16 0
                     [Scenario.rampOnTheWay] TICK_NONE)))%Q.
Proof.
  apply update_never_moves_uphill; [apply skierOk_new | reflexivity].
Defined.

Lemma update_keeps_a_horizontal_skier_in_place_witness :
  let this := turnLeft (turnLeft (new 0 0)) in
  position (Scenario.skierUpdate this 16 0 [Scenario.treeOnTheWay] TICK_NONE)
  = position this.
Proof.
  cbv zeta.
  apply (update_keeps_a_horizontal_skier_in_place Scenario.getImage
           Scenario.intersectTwoRects Scenario.DIAGONAL_SPEED_REDUCER
           Scenario.SPEED_INCREASE_THRESHOLD (turnLeft (turnLeft (new 0 0)))).
  left. reflexivity.
Defined.

Lemma landing_frame_collides_as_skiing_witness :
  state (Scenario.skierUpdate (jump (new 0 59)) 16 1
           [Scenario.rockOnTheWay] TICK_FINISHED) = STATE_CRASHED
  /\ state (Scenario.skierUpdate (jump (new 0 59)) 16 1
              [Scenario.rockOnTheWay] TICK_NONE) = STATE_JUMPING.
Proof.
  split.
  - eapply (proj1 (landing_frame_collides_as_skiing Scenario.getImage
                     Scenario.intersectTwoRects Scenario.DIAGONAL_SPEED_REDUCER
                     Scenario.SPEED_INCREASE_THRESHOLD (jump (new 0 59)) 16 1
                     Scenario.rockOnTheWay [] TICK_FINISHED _
                     Scenario.boundsOnTheWay eq_refl eq_refl eq_refl _)).
    + reflexivity.
    + discriminate.
  - eapply (proj2 (landing_frame_collides_as_skiing Scenario.getImage
                     Scenario.intersectTwoRects Scenario.DIAGONAL_SPEED_REDUCER
                     Scenario.SPEED_INCREASE_THRESHOLD (jump (new 0 59)) 16 1
                     Scenario.rockOnTheWay [] TICK_NONE _
                     Scenario.boundsOnTheWay eq_refl eq_refl eq_refl _)).
    + discriminate.
    + left. reflexivity.
  Unshelve.
  all: vm_compute; reflexivity.
Defined.

End SkierMore.

(** * Further properties of the frame loop and of the keyboard *)

Module GameMore.

Import Constants Utils Invariants.
Import Game.

Section Frames.

Variable KEYS : KeyTable.
Variable GAME_WIDTH GAME_HEIGHT : Q.
Variable OBSTACLE_FREQUENCY_INCREASE_THRESHOLD : Z.
Variable getImage : IMAGE_NAMES -> option Image.
Variable intersectTwoRects : Rect -> Rect -> bool.
Variable DIAGONAL_SPEED_REDUCER : Q.
Variable SPEED_INCREASE_THRESHOLD : Z.

Local Abbreviation runFrame :=
  (run GAME_WIDTH GAME_HEIGHT OBSTACLE_FREQUENCY_INCREASE_THRESHOLD getImage
     intersectTwoRects DIAGONAL_SPEED_REDUCER SPEED_INCREASE_THRESHOLD).

Local Abbreviation runAll :=
  (runFrames GAME_WIDTH GAME_HEIGHT OBSTACLE_FREQUENCY_INCREASE_THRESHOLD getImage
     intersectTwoRects DIAGONAL_SPEED_REDUCER SPEED_INCREASE_THRESHOLD).

Local Abbreviation updateWindow :=
  (updateGameWindow GAME_WIDTH GAME_HEIGHT OBSTACLE_FREQUENCY_INCREASE_THRESHOLD
     getImage intersectTwoRects DIAGONAL_SPEED_REDUCER SPEED_INCREASE_THRESHOLD).

Local Abbreviation skierFrame :=
  (Skier.update getImage intersectTwoRects DIAGONAL_SPEED_REDUCER
     SPEED_INCREASE_THRESHOLD).

Lemma updateGameWindow_fst (this : Game) (f : Frame) :
  fst (updateWindow this f)
  = set_skier
      (rhinoUpdate (rhinoCatchesSkier f)
         (skierFrame (skier this) (now f) (currentScore this) (obstacles f)
            (tick f)))
      (calculateGameWindow GAME_WIDTH GAME_HEIGHT (set_gameTime (now f) this)).
Proof. reflexivity. Qed.

Lemma run_playing (this : Game) (f : Frame) :
  state this = STATE_PLAYING ->
  runFrame this f
  = (updateCurrentScore (fst (updateWindow this f)),
     ([ClearCanvas] ++ snd (updateWindow this f)
      ++ drawGameWindow (updateCurrentScore (fst (updateWindow this f)))
      ++ [RequestAnimationFrame]) ++ []).
Proof.
  intros H. unfold run, isPlaying, isPaused. rewrite H. cbn [STATES_eqb].
  destruct (updateWindow this f) as [g updates] eqn:E.
  assert (Hg : state g = STATE_PLAYING).
  { change g with (fst (g, updates)). rewrite <- E, updateGameWindow_fst.
    exact H. }
  cbn [fst snd]. rewrite GameSpec.updateCurrentScore_state, Hg. reflexivity.
Qed.

Lemma run_not_playing (this : Game) (f : Frame) :
  state this = STATE_PAUSED -> runFrame this f = (this, [DrawPauseIcon]).
Proof.
  intros H. unfold run, isPlaying, isPaused. rewrite H. cbn. now rewrite H.
Qed.

Lemma run_fst_cases (this : Game) (f : Frame) :
  fst (runFrame this f)
  = match state this with
    | STATE_PLAYING => updateCurrentScore (fst (updateWindow this f))
    | STATE_PAUSED => this
    end.
Proof.
  destruct (state this) eqn:E.
  - now rewrite run_playing.
  - now rewrite run_not_playing.
Qed.

Lemma updateCurrentScore_bounds (this : Game) :
  currentScore this <= currentScore (updateCurrentScore this)
  <= currentScore this + 1.
Proof.
  unfold updateCurrentScore.
  destruct (Skier.isMovingDownwards (skier this)); cbn; lia.
Qed.

Lemma run_score_bounds (this : Game) (f : Frame) :
  currentScore this <= currentScore (fst (runFrame this f))
  <= currentScore this + 1.
Proof.
  rewrite run_fst_cases. destruct (state this); [| lia].
  pose proof (updateCurrentScore_bounds (fst (updateWindow this f))) as H.
  now rewrite updateGameWindow_fst in *.
Qed.

Lemma run_state (this : Game) (f : Frame) :
  state (fst (runFrame this f)) = state this.
Proof.
  rewrite run_fst_cases. destruct (state this) eqn:E; [| exact E].
  rewrite GameSpec.updateCurrentScore_state, updateGameWindow_fst. exact E.
Qed.

(** X12: the score never goes down and grows by at most 1 per call of [run]:
    after any list of frames it lies between the score before and that score
    plus the number of frames. *)
Theorem score_grows_by_at_most_one_per_frame (this : Game) (fs : list Frame) :
  currentScore this <= currentScore (fst (runAll this fs))
  <= currentScore this + Z.of_nat (List.length fs).
Proof.
  revert this. induction fs as [| f fs IH]; intros this.
  - cbn. lia.
  - cbn [runFrames List.length].
    pose proof (run_score_bounds this f) as H1.
    destruct (runFrame this f) as [g1 log1]. cbn [fst] in H1.
    specialize (IH g1). destruct (runAll g1 fs) as [g2 log2].
    cbn [fst] in *. lia.
Qed.

(** X13: [run] never changes the state of the game, and it asks for the next
    animation frame exactly once when the game is playing and never when it is
    paused; a paused game is returned as it is, with the pause icon as the only
    call. *)
Theorem run_reschedules_only_while_playing (this : Game) (f : Frame) :
  state (fst (runFrame this f)) = state this
  /\ List.length (filter isRequestAnimationFrame (snd (runFrame this f)))
     = (if isPlaying this then 1%nat else 0%nat)
  /\ (isPlaying this = false -> runFrame this f = (this, [DrawPauseIcon])).
Proof.
  split; [apply run_state |]. unfold isPlaying.
  destruct (state this) eqn:E; cbn [STATES_eqb].
  - split; [| discriminate]. rewrite (run_playing _ _ E). cbn [snd].
    unfold updateGameWindow, drawGameWindow, skierDraw. cbn [snd].
    rewrite !filter_app.
    match goal with
    | |- context [if ?b then [IncreaseObstaclePlacementChance] else []] =>
        destruct b
    end;
      match goal with
      | |- context [if ?b then [] else [EntityDraw ?e]] => destruct b
      end; reflexivity.
  - split; [| intros _]; now rewrite (run_not_playing _ _ E).
Qed.

(** X14: the window a playing frame leaves behind has the width and height of
    the game and is centred on the position the skier had when the frame
    began: [calculateGameWindow] runs before the skier is updated. *)
Theorem window_follows_the_skier_one_frame_late (this : Game) (f : Frame) :
  state this = STATE_PLAYING ->
  let w := gameWindow (fst (runFrame this f)) in
  let p := Skier.position (skier this) in
  (right w - left w == GAME_WIDTH)%Q
  /\ (bottom w - top w == GAME_HEIGHT)%Q
  /\ (left w + GAME_WIDTH / 2 == x p)%Q
  /\ (top w + GAME_HEIGHT / 2 == y p)%Q.
Proof.
  intros H. cbv zeta. rewrite (run_playing _ _ H). cbn [fst].
  assert (Hw : gameWindow (updateCurrentScore (fst (updateWindow this f)))
               = gameWindow (calculateGameWindow GAME_WIDTH GAME_HEIGHT this)).
  { unfold updateCurrentScore.
    destruct (Skier.isMovingDownwards (skier (fst (updateWindow this f))));
      reflexivity. }
  rewrite Hw. cbn. repeat split; field.
Qed.

(** ** Invariant of the game *)

Local Abbreviation keyDown :=
  (handleKeyDown KEYS GAME_WIDTH GAME_HEIGHT OBSTACLE_FREQUENCY_INCREASE_THRESHOLD
     getImage intersectTwoRects DIAGONAL_SPEED_REDUCER SPEED_INCREASE_THRESHOLD).

Local Abbreviation gameInput :=
  (handleInput KEYS GAME_WIDTH GAME_HEIGHT OBSTACLE_FREQUENCY_INCREASE_THRESHOLD
     getImage intersectTwoRects DIAGONAL_SPEED_REDUCER SPEED_INCREASE_THRESHOLD).

Local Abbreviation toggle :=
  (pauseOrResume GAME_WIDTH GAME_HEIGHT OBSTACLE_FREQUENCY_INCREASE_THRESHOLD
     getImage intersectTwoRects DIAGONAL_SPEED_REDUCER SPEED_INCREASE_THRESHOLD).

Local Abbreviation playAll :=
  (play KEYS GAME_WIDTH GAME_HEIGHT OBSTACLE_FREQUENCY_INCREASE_THRESHOLD
     getImage intersectTwoRects DIAGONAL_SPEED_REDUCER SPEED_INCREASE_THRESHOLD).

Lemma set_skier_same (this : Game) : set_skier (skier this) this = this.
Proof. now destruct this. Qed.

Lemma gameOk_run (this : Game) (f : Frame) :
  gameOk this -> gameOk (fst (runFrame this f)).
Proof.
  intros [Hs Hn]. rewrite run_fst_cases.
  destruct (state this); [| now split].
  destruct (GameSpec.updateCurrentScore_rule (fst (updateWindow this f))) as [Hk _].
  pose proof (updateCurrentScore_bounds (fst (updateWindow this f))) as Hb.
  split.
  - rewrite Hk, updateGameWindow_fst. cbn [skier set_skier].
    unfold rhinoUpdate. destruct (rhinoCatchesSkier f).
    + now apply SkierMore.skierOk_die, SkierMore.skierOk_update.
    + now apply SkierMore.skierOk_update.
  - assert (He : currentScore (fst (updateWindow this f)) = currentScore this)
      by (now rewrite updateGameWindow_fst).
    lia.
Qed.

Lemma toggle_fst (this : Game) (f : Frame) :
  fst (toggle this f)
  = match state this with
    | STATE_PLAYING => set_state STATE_PAUSED this
    | STATE_PAUSED => fst (runFrame (set_state STATE_PLAYING this) f)
    end.
Proof.
  unfold pauseOrResume, isPlaying, isPaused.
  destruct (state this); cbn [STATES_eqb]; [reflexivity |].
  now destruct (runFrame (set_state STATE_PLAYING this) f).
Qed.

Lemma gameInput_fst (this : Game) (key : string) (f : Frame) :
  fst (fst (gameInput this key f))
  = if String.eqb key (PAUSE KEYS) then fst (toggle this f) else this.
Proof.
  unfold handleInput, reset.
  destruct (String.eqb key (PAUSE KEYS)); [reflexivity |].
  now destruct (String.eqb key (RESET KEYS)).
Qed.

Lemma keyDown_fst (this : Game) (key : string) (f : Frame) :
  fst (keyDown this key f)
  = let g := fst (fst (gameInput this key f)) in
    if isPlaying g
    then set_skier (fst (Skier.handleInput KEYS (skier g) key)) g
    else g.
Proof.
  unfold handleKeyDown.
  destruct (gameInput this key f) as [[g log] h]. cbn [fst].
  destruct (isPlaying g); [| reflexivity].
  now destruct (Skier.handleInput KEYS (skier g) key).
Qed.

Lemma gameOk_keyDown (this : Game) (key : string) (f : Frame) :
  gameOk this -> gameOk (fst (keyDown this key f)).
Proof.
  intros H. rewrite keyDown_fst. cbv zeta.
  assert (Hg : gameOk (fst (fst (gameInput this key f)))).
  { rewrite gameInput_fst. destruct (String.eqb key (PAUSE KEYS)); [| exact H].
    rewrite toggle_fst. destruct (state this); [exact H |].
    apply gameOk_run. exact H. }
  destruct (isPlaying (fst (fst (gameInput this key f)))); [| exact Hg].
  destruct Hg as [Hs Hn]. split; [| exact Hn].
  cbn [skier set_skier]. now apply SkierMore.skierOk_handleInput.
Qed.

(** X15: in every game the browser can reach from [init] by animation frames
    and key presses, in any order, the skier's direction is one of the five
    constants, its speed is not negative, its image name is defined, and the
    score is not negative. *)
Theorem reachable_games_are_well_formed (t0 : Z) (events : list Event) :
  gameOk (playAll (init GAME_WIDTH GAME_HEIGHT t0) events).
Proof.
  unfold play.
  assert (H0 : gameOk (init GAME_WIDTH GAME_HEIGHT t0)).
  { split; [apply SkierMore.skierOk_new | cbn; lia]. }
  revert H0. generalize (init GAME_WIDTH GAME_HEIGHT t0).
  induction events as [| e events IH]; intros g Hg; [exact Hg |].
  cbn [fold_left]. apply IH.
  destruct e as [f | key f]; cbn [step];
    [now apply gameOk_run | now apply gameOk_keyDown].
Qed.

(** ** Keys *)

(** X16: a key that is none of the seven keys of the table changes nothing,
    whatever the state of the game and of the skier, and the default action of
    the browser is not prevented. *)
Theorem unknown_key_is_ignored (this : Game) (key : string) (f : Frame) :
  key <> PAUSE KEYS -> key <> RESET KEYS ->
  key <> SPACE KEYS -> key <> LEFT KEYS -> key <> RIGHT KEYS ->
  key <> UP KEYS -> key <> DOWN KEYS ->
  keyDown this key f = (this, []).
Proof.
  intros Hp Hr H1 H2 H3 H4 H5.
  apply String.eqb_neq in Hp, Hr, H1, H2, H3, H4, H5.
  unfold handleKeyDown, handleInput, Skier.handleInput.
  rewrite Hp, Hr, H1, H2, H3, H4, H5.
  destruct (isPlaying this); [| reflexivity].
  destruct (Skier.isDead (skier this)); now rewrite set_skier_same.
Qed.

(** X17: while the game is paused, a key other than the pause key never
    reaches the skier and changes nothing in the game; the reset key reloads
    the page and is the only such key whose default action is prevented. *)
Theorem paused_game_ignores_the_skier_keys (this : Game) (key : string) (f : Frame) :
  state this = STATE_PAUSED -> key <> PAUSE KEYS ->
  keyDown this key f
  = (this, if String.eqb key (RESET KEYS) then [LocationReload; PreventDefault]
           else []).
Proof.
  intros Hs Hp. apply String.eqb_neq in Hp.
  unfold handleKeyDown, handleInput, reset, isPlaying. rewrite Hp.
  destruct (String.eqb key (RESET KEYS)); now rewrite Hs.
Qed.

Lemma pause_key_only_pauses_aux (this : Game) (f : Frame) :
  state this = STATE_PLAYING ->
  keyDown this (PAUSE KEYS) f = (set_state STATE_PAUSED this, [PreventDefault]).
Proof.
  intros Hs. unfold handleKeyDown, handleInput, pauseOrResume, isPlaying.
  rewrite String.eqb_refl, Hs. reflexivity.
Qed.

(** X18: the pause key pressed while playing only switches the game to paused:
    no frame is run, the score and the skier are untouched, and the skier is
    not offered the key, even if the table gives the pause key and a skier key
    the same string. *)
Theorem pause_key_only_pauses (this : Game) (f : Frame) :
  state this = STATE_PLAYING ->
  keyDown this (PAUSE KEYS) f = (set_state STATE_PAUSED this, [PreventDefault]).
Proof.
  exact (pause_key_only_pauses_aux this f).
Qed.

(** X19: resuming runs a frame at once: when the pause key is not also a key
    of the skier, pressing it twice on a playing game leaves the game exactly
    as one call of [run] on the game as it was before the first press. *)
Theorem pause_then_resume_is_one_frame (this : Game) (f1 f2 : Frame) :
  state this = STATE_PLAYING ->
  PAUSE KEYS <> SPACE KEYS -> PAUSE KEYS <> LEFT KEYS ->
  PAUSE KEYS <> RIGHT KEYS -> PAUSE KEYS <> UP KEYS -> PAUSE KEYS <> DOWN KEYS ->
  fst (keyDown (fst (keyDown this (PAUSE KEYS) f1)) (PAUSE KEYS) f2)
  = fst (runFrame this f2).
Proof.
  intros Hs H1 H2 H3 H4 H5.
  apply String.eqb_neq in H1, H2, H3, H4, H5.
  rewrite (pause_key_only_pauses_aux this f1 Hs). cbn [fst].
  rewrite keyDown_fst, gameInput_fst, String.eqb_refl, toggle_fst. cbv zeta.
  cbn [state set_state].
  assert (Hsame : set_state STATE_PLAYING (set_state STATE_PAUSED this) = this).
  { destruct this. cbn in Hs. now subst. }
  rewrite Hsame. unfold isPlaying. rewrite run_state, Hs. cbn [STATES_eqb].
  unfold Skier.handleInput. rewrite H1, H2, H3, H4, H5.
  destruct (Skier.isDead (skier (fst (runFrame this f2))));
    apply set_skier_same.
Qed.

(** ** A skier that faces fully left or right *)

Lemma run_horizontal (this : Game) (f : Frame) :
  Skier.direction (skier this) = Skier.DIRECTION_LEFT
  \/ Skier.direction (skier this) = Skier.DIRECTION_RIGHT ->
  currentScore (fst (runFrame this f)) = currentScore this
  /\ Skier.position (skier (fst (runFrame this f))) = Skier.position (skier this)
  /\ Skier.direction (skier (fst (runFrame this f))) = Skier.direction (skier this).
Proof.
  intros Hd. rewrite run_fst_cases. destruct (state this); [| now repeat split].
  destruct (SkierMore.update_horizontal getImage intersectTwoRects
              DIAGONAL_SPEED_REDUCER SPEED_INCREASE_THRESHOLD (skier this)
              (now f) (currentScore this) (obstacles f) (tick f) Hd)
    as [Hp Hdir].
  assert (Hk : Skier.position (skier (fst (updateWindow this f)))
               = Skier.position (skier this)
               /\ Skier.direction (skier (fst (updateWindow this f)))
                  = Skier.direction (skier this)).
  { rewrite updateGameWindow_fst. cbn [skier set_skier]. unfold rhinoUpdate.
    destruct (rhinoCatchesSkier f); cbn; now split. }
  destruct Hk as [Hp' Hd'].
  rewrite GameSpec.updateCurrentScore_horizontal by (now rewrite Hd').
  now rewrite updateGameWindow_fst in *.
Qed.

(** X20: while the skier faces fully left or fully right, frames add nothing
    to the score and do not move the skier, whatever its state and speed and
    whatever happens around it: after any list of frames the score, the
    position and the direction are what they were. *)
Theorem horizontal_skier_gains_no_score (this : Game) (fs : list Frame) :
  Skier.direction (skier this) = Skier.DIRECTION_LEFT
  \/ Skier.direction (skier this) = Skier.DIRECTION_RIGHT ->
  currentScore (fst (runAll this fs)) = currentScore this
  /\ Skier.position (skier (fst (runAll this fs))) = Skier.position (skier this)
  /\ Skier.direction (skier (fst (runAll this fs))) = Skier.direction (skier this).
Proof.
  revert this. induction fs as [| f fs IH]; intros this Hd; [now repeat split |].
  cbn [runFrames].
  destruct (run_horizontal this f Hd) as [H1 [H2 H3]].
  destruct (runFrame this f) as [g1 log1]. cbn [fst] in *.
  assert (Hd1 : Skier.direction (skier g1) = Skier.DIRECTION_LEFT
                \/ Skier.direction (skier g1) = Skier.DIRECTION_RIGHT)
    by (now rewrite H3).
  specialize (IH g1 Hd1). destruct (runAll g1 fs) as [g2 log2]. cbn [fst] in *.
  destruct IH as [I1 [I2 I3]]. repeat split; congruence.
Qed.

Lemma run_stopped_on_a_multiple (this : Game) (f : Frame) :
  state this = STATE_PLAYING ->
  Skier.state (skier this) = Skier.STATE_SKIING ->
  Skier.direction (skier this) = Skier.DIRECTION_LEFT
  \/ Skier.direction (skier this) = Skier.DIRECTION_RIGHT ->
  remIsZero (currentScore this) SPEED_INCREASE_THRESHOLD = true ->
  obstacles f = [] -> rhinoCatchesSkier f = false ->
  let this' := fst (runFrame this f) in
  state this' = STATE_PLAYING
  /\ Skier.state (skier this') = Skier.STATE_SKIING
  /\ Skier.direction (skier this') = Skier.direction (skier this)
  /\ currentScore this' = currentScore this
  /\ Skier.speed (skier this') = Skier.speed (skier this) + 1.
Proof.
  intros Hp Hs Hd Hr Ho Hc. cbv zeta.
  destruct (run_horizontal this f Hd) as [Hscore [_ Hdir]].
  split; [now rewrite run_state |].
  rewrite run_fst_cases, Hp.
  destruct (GameSpec.updateCurrentScore_rule (fst (updateWindow this f))) as [-> _].
  rewrite run_fst_cases, Hp in Hscore, Hdir.
  destruct (GameSpec.updateCurrentScore_rule (fst (updateWindow this f)))
    as [Hk _]. rewrite Hk in Hdir.
  rewrite updateGameWindow_fst in *. cbn [skier set_skier] in *.
  rewrite Ho, Hc in *. cbn [rhinoUpdate] in *.
  rewrite SkierMore.update_skiing_horizontal_quiet in * by assumption.
  destruct (SkierSpec.increaseSpeedIfThresholdMet_fields SPEED_INCREASE_THRESHOLD
              (skier this) (currentScore this)) as [H1 [H2 [_ H4]]].
  cbv zeta in H1, H2, H4. rewrite Hr in H4.
  repeat split; congruence.
Qed.

(** X21: the speed check is made in every frame with the score as it stands:
    while a playing game's score is a multiple of the speed threshold and does
    not change, because the skiing skier faces fully left or right, each frame
    with no obstacle and no rhino contact raises the speed by 1, so [n] such
    frames raise it by [n]. *)
Theorem speed_grows_every_frame_on_a_held_multiple (this : Game) (fs : list Frame) :
  state this = STATE_PLAYING ->
  Skier.state (skier this) = Skier.STATE_SKIING ->
  Skier.direction (skier this) = Skier.DIRECTION_LEFT
  \/ Skier.direction (skier this) = Skier.DIRECTION_RIGHT ->
  remIsZero (currentScore this) SPEED_INCREASE_THRESHOLD = true ->
  Forall (fun f => obstacles f = [] /\ rhinoCatchesSkier f = false) fs ->
  Skier.speed (skier (fst (runAll this fs)))
  = Skier.speed (skier this) + Z.of_nat (List.length fs)
  /\ currentScore (fst (runAll this fs)) = currentScore this.
Proof.
  intros Hp Hs Hd Hr Hq. revert this Hp Hs Hd Hr.
  induction Hq as [| f fs [Ho Hc] _ IH]; intros this Hp Hs Hd Hr.
  - cbn. split; [lia | reflexivity].
  - cbn [runFrames List.length].
    destruct (run_stopped_on_a_multiple this f Hp Hs Hd Hr Ho Hc)
      as [Hp1 [Hs1 [Hd1 [Hn1 Hv1]]]].
    destruct (runFrame this f) as [g1 log1]. cbn [fst] in *.
    assert (Hd1' : Skier.direction (skier g1) = Skier.DIRECTION_LEFT
                   \/ Skier.direction (skier g1) = Skier.DIRECTION_RIGHT)
      by (now rewrite Hd1).
    assert (Hr1 : remIsZero (currentScore g1) SPEED_INCREASE_THRESHOLD = true)
      by (now rewrite Hn1).
    specialize (IH g1 Hp1 Hs1 Hd1' Hr1).
    destruct (runAll g1 fs) as [g2 log2]. cbn [fst] in *.
    destruct IH as [I1 I2]. split; [lia | congruence].
Qed.

End Frames.

Lemma horizontal_skier_gains_no_score_witness :
  currentScore
    (fst (Scenario.gameRunFrames Scenario.stoppedGame
            [Scenario.quietFrame 176; Scenario.treeFrame 192;
             Scenario.caughtFrame 208]))
  = 10.
Proof.
  exact (proj1 (horizontal_skier_gains_no_score Scenario.GAME_WIDTH
                  Scenario.GAME_HEIGHT
                  Scenario.OBSTACLE_FREQUENCY_INCREASE_THRESHOLD
                  Scenario.getImage Scenario.intersectTwoRects
                  Scenario.DIAGONAL_SPEED_REDUCER
                  Scenario.SPEED_INCREASE_THRESHOLD Scenario.stoppedGame
                  [Scenario.quietFrame 176; Scenario.treeFrame 192;
                   Scenario.caughtFrame 208]
                  (or_introl eq_refl))).
Defined.

Lemma speed_grows_every_frame_on_a_held_multiple_witness :
  Skier.speed
    (skier (fst (Scenario.gameRunFrames Scenario.stoppedGame
                   [Scenario.quietFrame 176; Scenario.quietFrame 192;
                    Scenario.quietFrame 208])))
  = 6 + 3.
Proof.
  assert (Hq : Forall (fun f => obstacles f = [] /\ rhinoCatchesSkier f = false)
                 [Scenario.quietFrame 176; Scenario.quietFrame 192;
                  Scenario.quietFrame 208])
    by (repeat constructor).
  exact (proj1 (speed_grows_every_frame_on_a_held_multiple Scenario.GAME_WIDTH
                  Scenario.GAME_HEIGHT
                  Scenario.OBSTACLE_FREQUENCY_INCREASE_THRESHOLD
                  Scenario.getImage Scenario.intersectTwoRects
                  Scenario.DIAGONAL_SPEED_REDUCER
                  Scenario.SPEED_INCREASE_THRESHOLD Scenario.stoppedGame _
                  eq_refl eq_refl (or_introl eq_refl) eq_refl Hq)).
Defined.

Lemma window_follows_the_skier_one_frame_late_witness :
  let g := Scenario.quietRun 3 in
  let w := gameWindow (fst (Scenario.gameRun g (Scenario.quietFrame 64))) in
  (right w - left w == Scenario.GAME_WIDTH)%Q
  /\ (top w + Scenario.GAME_HEIGHT / 2 == y (Skier.position (skier g)))%Q.
Proof.
  cbv zeta.
  destruct (window_follows_the_skier_one_frame_late Scenario.GAME_WIDTH
              Scenario.GAME_HEIGHT Scenario.OBSTACLE_FREQUENCY_INCREASE_THRESHOLD
              Scenario.getImage Scenario.intersectTwoRects
              Scenario.DIAGONAL_SPEED_REDUCER Scenario.SPEED_INCREASE_THRESHOLD
              (Scenario.quietRun 3) (Scenario.quietFrame 64))
    as [Hw [_ [_ Ht]]].
  - vm_compute. reflexivity.
  - split; [exact Hw | exact Ht].
Defined.

Lemma run_reschedules_only_while_playing_witness :
  let paused := fst (Scenario.gameHandleKeyDown (Scenario.gameInit 0)
                       (PAUSE Scenario.KEYS) (Scenario.quietFrame 16)) in
  Scenario.gameRun paused (Scenario.quietFrame 32) = (paused, [DrawPauseIcon]).
Proof.
  cbv zeta.
  apply (run_reschedules_only_while_playing Scenario.GAME_WIDTH
           Scenario.GAME_HEIGHT Scenario.OBSTACLE_FREQUENCY_INCREASE_THRESHOLD
           Scenario.getImage Scenario.intersectTwoRects
           Scenario.DIAGONAL_SPEED_REDUCER Scenario.SPEED_INCREASE_THRESHOLD).
  reflexivity.
Defined.

Lemma unknown_key_is_ignored_witness :
  Scenario.gameHandleKeyDown (Scenario.gameInit 0) "x" (Scenario.quietFrame 16)
  = (Scenario.gameInit 0, []).
Proof.
  apply unknown_key_is_ignored; discriminate.
Defined.

Lemma paused_game_ignores_the_skier_keys_witness :
  let paused := fst (Scenario.gameHandleKeyDown (Scenario.gameInit 0)
                       (PAUSE Scenario.KEYS) (Scenario.quietFrame 16)) in
  Scenario.gameHandleKeyDown paused (LEFT Scenario.KEYS) (Scenario.quietFrame 32)
  = (paused, []).
Proof.
  cbv zeta.
  apply (paused_game_ignores_the_skier_keys Scenario.KEYS Scenario.GAME_WIDTH
           Scenario.GAME_HEIGHT Scenario.OBSTACLE_FREQUENCY_INCREASE_THRESHOLD
           Scenario.getImage Scenario.intersectTwoRects
           Scenario.DIAGONAL_SPEED_REDUCER Scenario.SPEED_INCREASE_THRESHOLD);
    [reflexivity | discriminate].
Defined.

Lemma pause_key_only_pauses_witness :
  Scenario.gameHandleKeyDown (Scenario.gameInit 0) (PAUSE Scenario.KEYS)
    (Scenario.quietFrame 16)
  = (set_state STATE_PAUSED (Scenario.gameInit 0), [PreventDefault]).
Proof.
  apply pause_key_only_pauses. reflexivity.
Defined.

Lemma pause_then_resume_is_one_frame_witness :
  fst (Scenario.gameHandleKeyDown
         (fst (Scenario.gameHandleKeyDown (Scenario.gameInit 0)
                 (PAUSE Scenario.KEYS) (Scenario.quietFrame 16)))
         (PAUSE Scenario.KEYS) (Scenario.quietFrame 32))
  = fst (Scenario.gameRun (Scenario.gameInit 0) (Scenario.quietFrame 32)).
Proof.
  apply pause_then_resume_is_one_frame; [reflexivity | discriminate ..].
Defined.

End GameMore.
